(** * Metadata enrichment and ingestion: a shallow embedding

    The development follows the Python sources
    [fetch_metadata_from_doi.py], [fetch_metadata_from_title.py],
    [ingestion_engine.py] and, for [format_authors],
    [generate_citation_html_for_website.py]:

    - Python values, text and the string methods the code calls;
    - [normalize_doi], the identifier normaliser;
    - [enrich] and [is_complete], the fill-only-if-empty merge;
    - the two waterfall engines, written in a small monad that threads the
      local variables and the request history and that has Python's
      [return] and exceptions;
    - the row-level functions of the ingestion pipeline, [process_row]
      among them, the de-duplicating append and the functions on the
      columns of the master dataset.

    Definitions come first, the properties after them. *)

From stdpp Require Import gmap strings list fin_maps pretty.
From Stdlib Require Import ZArith Lia Ascii.

Open Scope string_scope.
Open Scope list_scope.

(** ** Python values

    The values a metadata field or a spreadsheet cell holds.  Floats are
    the ones pandas produces for such cells: the missing-value marker NaN
    and integral numbers: [PFloat z] is the float of the value [z]
    ([PFloat 2020] is [2020.0]), for an integer [z] that a float holds,
    as it holds every one of up to 53 bits. *)

Inductive pyval : Type :=
  | PNone
  | PNaN
  | PInt (z : Z)
  | PFloat (z : Z)
  | PStr (s : string).

#[global] Instance pyval_eq_dec : EqDecision pyval.
Proof. solve_decision. Defined.

(** [bool(v)]. *)
Definition truthy (v : pyval) : bool :=
  match v with
  | PNone => false
  | PNaN => true
  | PInt z | PFloat z => negb (z =? 0)%Z
  | PStr s => negb (String.eqb s "")
  end.

(** [str(x)] of a float [x] with an integral value: the shortest digits
    that read back as [x], written with a [.0] below 1e16 and as
    [d.ddde+XX] from 1e16 on.  [round_double n] is the float nearest to
    the integer [n] (53 bits, ties to even), which is [n] itself where a
    float holds [n]; [reads_back x e] is the nearest multiple of [10^e]
    that reads back as the float [x], if one does. *)
Definition round_double (n : Z) : Z :=
  let bits := (Z.log2 n + 1)%Z in
  if (bits <=? 53)%Z then n
  else
    let sh := (bits - 53)%Z in
    let q := Z.shiftr n sh in
    let r := (n - Z.shiftl q sh)%Z in
    let half := Z.shiftl 1 (sh - 1) in
    let q' := if (half <? r)%Z || ((r =? half)%Z && Z.odd q)
              then (q + 1)%Z else q in
    Z.shiftl q' sh.

Definition reads_back (x : Z) (e : nat) : option Z :=
  let s := (10 ^ Z.of_nat e)%Z in
  let lo := (x / s * s)%Z in
  let hi := (lo + s)%Z in
  match (round_double lo =? x)%Z, (round_double hi =? x)%Z with
  | true, true => Some (if (x - lo <=? hi - x)%Z then lo else hi)
  | true, false => Some lo
  | false, true => Some hi
  | false, false => None
  end.

Fixpoint shortest (x : Z) (e : nat) : Z :=
  match reads_back x e with
  | Some c => c
  | None => match e with O => x | S e' => shortest x e' end
  end.

Fixpoint drop_zeros (s : string) : string :=
  match s with
  | "" => ""
  | String c s' =>
      match drop_zeros s' with
      | "" => if Ascii.eqb c "0" then "" else String c ""
      | r => String c r
      end
  end.

Definition float_repr (n : Z) : string :=
  let x := round_double n in
  if (2 ^ 1024 <=? x)%Z then "inf"
  else
    let c := shortest x (String.length (pretty x) - 1) in
    let decpt := String.length (pretty c) in
    if (decpt <=? 16)%nat then pretty c +:+ ".0"
    else
      let mantissa :=
        match drop_zeros (pretty c) with
        | String d "" => String d ""
        | String d rest => String d ("." +:+ rest)
        | "" => "0"
        end in
      mantissa +:+ "e+" +:+ pretty (decpt - 1)%nat.

Definition float_str (z : Z) : string :=
  if (z <? 0)%Z then "-" +:+ float_repr (- z) else float_repr z.

(** [str(v)]. *)
Definition py_str (v : pyval) : string :=
  match v with
  | PNone => "None"
  | PNaN => "nan"
  | PInt z => pretty z
  | PFloat z => float_str z
  | PStr s => s
  end.

(** [a or b]. *)
Definition py_or (a b : pyval) : pyval := if truthy a then a else b.

(** [isinstance(v, str)]. *)
Definition is_str (v : pyval) : bool :=
  match v with PStr _ => true | _ => false end.

(** ** Text

    Text is a [string] whose characters are the code points below 256.
    [is_space] is [str.isspace] on that range. *)

Definition is_space (c : ascii) : bool :=
  let n := N_of_ascii c in
  ((9 <=? n) && (n <=? 13) || (28 <=? n) && (n <=? 32)
   || (n =? 133) || (n =? 160))%N.

(** [s.lstrip()], [s.rstrip()], [s.strip()]. *)
Fixpoint lstrip (s : string) : string :=
  match s with
  | "" => ""
  | String c s' => if is_space c then lstrip s' else s
  end.

Fixpoint rstrip (s : string) : string :=
  match s with
  | "" => ""
  | String c s' =>
      match rstrip s' with
      | "" => if is_space c then "" else String c ""
      | r => String c r
      end
  end.

Definition strip (s : string) : string := rstrip (lstrip s).

(** [s.startswith(p)]. *)
Definition startswith (s p : string) : bool := String.prefix p s.

(** [s.replace(old, "")]: every occurrence of [old], found from the left
    and without overlap, is deleted.  [skip] counts the characters of a
    found occurrence still to be dropped. *)
Fixpoint remove_from (old : string) (skip : nat) (s : string) : string :=
  match s with
  | "" => ""
  | String c s' =>
      match skip with
      | S k => remove_from old k s'
      | O =>
          if String.prefix old s
          then remove_from old (String.length old - 1) s'
          else String c (remove_from old 0 s')
      end
  end.

Definition replace_empty (s old : string) : string :=
  match old with
  | "" => s
  | _ => remove_from old 0 s
  end.

(** A text made of whitespace only (the empty text included). *)
Fixpoint blank (s : string) : bool :=
  match s with
  | "" => true
  | String c s' => is_space c && blank s'
  end.

(** [s.lower()]. *)
Definition lower_char (c : ascii) : ascii :=
  let n := N_of_ascii c in
  if ((65 <=? n) && (n <=? 90) || (192 <=? n) && (n <=? 222) && negb (n =? 215))%N
  then ascii_of_N (n + 32) else c.

Fixpoint lower (s : string) : string :=
  match s with
  | "" => ""
  | String c s' => String (lower_char c) (lower s')
  end.

(** [urllib.parse.quote(s)]: letters, digits and [_ . - ~ /] stay, every
    other character becomes the [%XX] of each byte of its UTF-8 form. *)
Definition hex_digit (n : N) : ascii :=
  ascii_of_N (if (n <? 10)%N then 48 + n else 55 + n).

Definition percent (b : N) : string :=
  String "%" (String (hex_digit (b / 16)) (String (hex_digit (b mod 16)) "")).

Definition quote_safe (c : ascii) : bool :=
  let n := N_of_ascii c in
  ((65 <=? n) && (n <=? 90) || (97 <=? n) && (n <=? 122)
   || (48 <=? n) && (n <=? 57)
   || (n =? 95) || (n =? 46) || (n =? 45) || (n =? 126) || (n =? 47))%N.

Definition quote_char (c : ascii) : string :=
  let n := N_of_ascii c in
  if quote_safe c then String c ""
  else if (n <? 128)%N then percent n
  else percent (192 + n / 64) +:+ percent (128 + n mod 64).

Fixpoint quote (s : string) : string :=
  match s with
  | "" => ""
  | String c s' => quote_char c +:+ quote s'
  end.

(** The two [re.sub] calls that clean a title.  [year_paren s] is the
    rest of [s] after a match of [\(\s*\d{4}\s*\)] at its start. *)
Definition is_digit (c : ascii) : bool :=
  let n := N_of_ascii c in ((48 <=? n) && (n <=? 57))%N.

Definition year_paren (s : string) : option string :=
  match s with
  | String "(" r =>
      match lstrip r with
      | String a (String b (String c (String d r2))) =>
          if is_digit a && is_digit b && is_digit c && is_digit d then
            match lstrip r2 with
            | String ")" r3 => Some r3
            | _ => None
            end
          else None
      | _ => None
      end
  | _ => None
  end.

Fixpoint drop_year_parens (skip : nat) (s : string) : string :=
  match s with
  | "" => ""
  | String c s' =>
      match skip with
      | S k => drop_year_parens k s'
      | O =>
          match year_paren s with
          | Some rest => drop_year_parens (String.length s' - String.length rest) s'
          | None => String c (drop_year_parens 0 s')
          end
      end
  end.

(** A character of the class [[\s\-\.,:;]]. *)
Definition trailing_junk (c : ascii) : bool :=
  let n := N_of_ascii c in
  (is_space c || (n =? 45) || (n =? 46) || (n =? 44) || (n =? 58) || (n =? 59))%N.

Fixpoint drop_trailing_junk (s : string) : string :=
  match s with
  | "" => ""
  | String c s' =>
      match drop_trailing_junk s' with
      | "" => if trailing_junk c then "" else String c ""
      | r => String c r
      end
  end.

Definition clean_title (title : string) : string :=
  strip (drop_trailing_junk (drop_year_parens 0 title)).

(** ** The identifier normaliser

    [normalize_doi] of [fetch_metadata_from_title.py] and of
    [ingestion_engine.py]; the two copies are the same text.  The result
    is [None] or a string. *)

Definition normalize_doi (doi : pyval) : pyval :=
  match doi with
  | PStr s =>
      if negb (truthy (PStr (strip s))) then PNone
      else
        let doi := strip s in
        let doi :=
          if startswith doi "http://doi.org/" then
            replace_empty doi "http://doi.org/"
          else if startswith doi "https://doi.org/" then
            replace_empty doi "https://doi.org/"
          else if startswith doi "http://dx.doi.org/" then
            replace_empty doi "http://dx.doi.org/"
          else if startswith doi "https://dx.doi.org/" then
            replace_empty doi "https://dx.doi.org/"
          else doi in
        if truthy (PStr doi) then PStr doi else PNone
  | _ => PNone
  end.

(** The resolver prefixes [normalize_doi] knows, in the order it tests
    them. *)
Definition known_prefixes : list string :=
  [ "http://doi.org/"; "https://doi.org/";
    "http://dx.doi.org/"; "https://dx.doi.org/" ].

(** A bare identifier: not blank, no surrounding whitespace, and none of
    the known prefixes in front. *)
Definition is_bare (s : string) : bool :=
  negb (String.eqb s "") && String.eqb (strip s) s
  && forallb (fun p => negb (startswith s p)) known_prefixes.

(** ** The merge: [enrich] and [is_complete]

    The running record is a dict from field names to values.  The record a
    provider contributes is a dict literal, kept as the list of its items
    in source order: [enrich] visits [new.items()] in that order. *)

Abbreviation record := (gmap string pyval).

(** [d.get(k)]. *)
Definition dict_get (d : gmap string pyval) (k : string) : pyval :=
  default PNone (d !! k).

(** [v in [None, "", "NaN"]]. *)
Definition unfilled (v : pyval) : bool :=
  match v with
  | PNone => true
  | PStr s => String.eqb s "" || String.eqb s "NaN"
  | _ => false
  end.

(** The body of the loop of [enrich]. *)
Definition enrich_item (current : gmap string pyval) (kv : string * pyval)
  : gmap string pyval :=
  if unfilled (dict_get current kv.1) && negb (unfilled kv.2)
  then <[kv.1 := kv.2]> current
  else current.

(** [enrich(current, new)] of both engines. *)
Definition enrich (current : gmap string pyval) (new : list (string * pyval))
  : gmap string pyval :=
  match new with
  | [] => current
  | _ => foldl enrich_item current new
  end.

(** [is_complete(m)] of both engines. *)
Definition is_complete (m : gmap string pyval) : bool :=
  bool_decide (map_Forall (fun k _ => unfilled (dict_get m k) = false) m).

(** [{k: None for k in keys}]. *)
Definition none_dict (keys : list string) : gmap string pyval :=
  list_to_map ((fun k => (k, PNone)) <$> keys).

(** ** The outside world

    What the adapters read from a provider.  [work] holds the values found
    at the places of the answer an adapter looks at; a field the answer
    does not have is [PNone].  [w_url] is [None] where the answer has no
    [url] key, and [w_doi_url] is the second link Unpaywall offers. *)

Inductive provider : Type :=
  | OpenAlex | DataCite | Crossref | Unpaywall | EuropePMC | SemanticScholar.

#[global] Instance provider_eq_dec : EqDecision provider.
Proof. solve_decision. Defined.

Record work : Type := {
  w_doi : pyval;
  w_authors : pyval;
  w_title : pyval;
  w_journal : pyval;
  w_volume : pyval;
  w_issue : pyval;
  w_pages : pyval;
  w_year : pyval;
  w_url : option pyval;
  w_doi_url : pyval;
}.

(** One entry of an answer: a work all of whose fields can be read, or one
    whose identifier can be read while reading its other fields raises. *)
Inductive item : Type :=
  | Item (w : work)
  | BrokenItem (raw_doi : pyval).

(** The body of an answer: not of the shape the adapter reads (reading it
    raises), or the works it lists.  A lookup by identifier answers with
    one work, a search with a list of hits. *)
Inductive body : Type :=
  | Malformed
  | Works (l : list item).

(** What [requests.get] does: it raises (time-out, connection error), or
    it gives a response with a status code and a body. *)
Inductive reply : Type :=
  | NetworkError
  | Response (status_code : Z) (content : body).

(** ** The engine monad

    The state of one lookup: the running record [meta], the local
    variable [doi], and the requests sent so far, oldest first.  A
    computation ends normally, leaves the function through [return], or
    raises; what it did to the state before stays done. *)

Record state : Type := {
  st_meta : gmap string pyval;
  st_doi : pyval;
  st_log : list (provider * string);
}.

Inductive outcome (A : Type) : Type :=
  | Normal (a : A)
  | Return (v : gmap string pyval)
  | Raise.
Arguments Normal {A} a.
Arguments Return {A} v.
Arguments Raise {A}.

Definition M (A : Type) : Type := state -> outcome A * state.

Definition ret {A} (a : A) : M A := fun s => (Normal a, s).

Definition bind {A B} (m : M A) (k : A -> M B) : M B :=
  fun s =>
    match m s with
    | (Normal a, s') => k a s'
    | (Return v, s') => (Return v, s')
    | (Raise, s') => (Raise, s')
    end.

Notation "x <- m ;; k" := (bind m (fun x => k))
  (at level 100, m at level 99, k at level 200, right associativity).
Notation "m ;; k" := (bind m (fun _ => k))
  (at level 100, k at level 200, right associativity).

(** [raise], [return v], and [try: m except Exception: pass]. *)
Definition raise {A} : M A := fun s => (Raise, s).
Definition return_ {A} (v : gmap string pyval) : M A := fun s => (Return v, s).
Definition try_except (m : M unit) : M unit :=
  fun s =>
    match m s with
    | (Raise, s') => (Normal tt, s')
    | r => r
    end.

Definition get_meta : M (gmap string pyval) := fun s => (Normal (st_meta s), s).
Definition set_meta (m : gmap string pyval) : M unit :=
  fun s => (Normal tt, {| st_meta := m; st_doi := st_doi s; st_log := st_log s |}).
Definition get_doi : M pyval := fun s => (Normal (st_doi s), s).
Definition set_doi (d : pyval) : M unit :=
  fun s => (Normal tt, {| st_meta := st_meta s; st_doi := d; st_log := st_log s |}).

(** [time.sleep(delay)]. *)
Definition sleep : M unit := ret tt.

(** [if c: m]. *)
Definition when (c : bool) (m : M unit) : M unit := if c then m else ret tt.

(** [meta = enrich(meta, new)] followed by
    [if is_complete(meta): return meta]. *)
Definition merge (new : list (string * pyval)) : M unit :=
  m <- get_meta ;; set_meta (enrich m new).
Definition return_if_complete : M unit :=
  m <- get_meta ;; if is_complete m then return_ m else ret tt.

(** ** The adapters and the two engines *)

Inductive result : Type :=
  | Returned (v : option (gmap string pyval))
  | Raised.

(** The call of a function body: what the caller gets, and the requests
    that were sent. *)
Definition call (body : M unit) (s : state) : result * list (provider * string) :=
  match body s with
  | (Normal _, s') => (Returned None, st_log s')
  | (Return v, s') => (Returned (Some v), st_log s')
  | (Raise, s') => (Raised, st_log s')
  end.

(** Statements one after the other. *)
Fixpoint seq (l : list (M unit)) : M unit :=
  match l with
  | [] => ret tt
  | m :: l' => m ;; seq l'
  end.

Definition doi_url (doi : string) : string := "https://doi.org/" +:+ doi.

(** [x or None]. *)
Definition or_none (v : pyval) : pyval := py_or v PNone.

Definition raw_doi (it : item) : pyval :=
  match it with
  | Item w => w_doi w
  | BrokenItem d => d
  end.

Section Engines.

(** The answer of the outside world to each request. *)
Variable world : string -> reply.

(** [requests.get(url, ...)]: the request is sent, then the call raises
    or gives the status code and the body. *)
Definition http_get (p : provider) (url : string) : M (Z * body) :=
  fun s =>
    let s' := {| st_meta := st_meta s; st_doi := st_doi s;
                 st_log := st_log s ++ [(p, url)] |} in
    match world url with
    | NetworkError => (Raise, s')
    | Response c b => (Normal (c, b), s')
    end.

(** Reading the fields of a work. *)
Definition read (it : item) : M work :=
  match it with
  | Item w => ret w
  | BrokenItem _ => raise
  end.

(** Reading the list of hits of a search, and the work of a lookup by
    identifier. *)
Definition hits (b : body) : M (list item) :=
  match b with
  | Malformed => raise
  | Works l => ret l
  end.

Definition the_work (b : body) : M work :=
  match b with
  | Works (it :: _) => read it
  | _ => raise
  end.

(** *** [fetch_metadata_from_doi] *)

Definition openalex_by_doi (doi : string) : M unit :=
  try_except (
    r <- http_get OpenAlex ("https://api.openalex.org/works/https://doi.org/" +:+ doi) ;;
    when (r.1 =? 200)%Z (
      data <- the_work r.2 ;;
      let oa :=
        [ ("authors", or_none (w_authors data));
          ("title", w_title data);
          ("journal", w_journal data);
          ("volume", w_volume data);
          ("issue", w_issue data);
          ("pages", w_pages data);
          ("year", w_year data);
          ("url", py_or (default PNone (w_url data)) (PStr (doi_url doi))) ] in
      merge oa ;;
      return_if_complete)).

Definition datacite_by_doi (doi : string) : M unit :=
  try_except (
    r <- http_get DataCite ("https://api.datacite.org/dois/" +:+ lower doi) ;;
    when (r.1 =? 200)%Z (
      d <- the_work r.2 ;;
      let dc :=
        [ ("authors", or_none (w_authors d));
          ("title", w_title d);
          ("journal", w_journal d);
          ("year", w_year d);
          ("url", py_or (default PNone (w_url d)) (PStr (doi_url doi))) ] in
      merge dc ;;
      return_if_complete)).

Definition crossref_by_doi (doi : string) : M unit :=
  try_except (
    r <- http_get Crossref ("https://api.crossref.org/works/" +:+ doi) ;;
    when (r.1 =? 200)%Z (
      m <- the_work r.2 ;;
      let cr :=
        [ ("authors", or_none (w_authors m));
          ("title", w_title m);
          ("journal", w_journal m);
          ("volume", w_volume m);
          ("issue", w_issue m);
          ("pages", w_pages m);
          ("year", w_year m);
          ("url", PStr (doi_url doi)) ] in
      merge cr ;;
      return_if_complete)).

Definition unpaywall_by_doi (doi email : string) : M unit :=
  try_except (
    r <- http_get Unpaywall
           ("https://api.unpaywall.org/v2/" +:+ doi +:+ "?email=" +:+ email) ;;
    when (r.1 =? 200)%Z (
      u <- the_work r.2 ;;
      let up :=
        [ ("authors", or_none (w_authors u));
          ("title", w_title u);
          ("journal", w_journal u);
          ("volume", w_volume u);
          ("issue", w_issue u);
          ("pages", w_pages u);
          ("year", w_year u);
          ("url", py_or (default PNone (w_url u))
                    (py_or (w_doi_url u) (PStr (doi_url doi)))) ] in
      merge up ;;
      return_if_complete)).

Definition europepmc_by_doi (doi : string) : M unit :=
  try_except (
    r <- http_get EuropePMC
           ("https://www.ebi.ac.uk/europepmc/webservices/rest/search?query=DOI:"
            +:+ doi +:+ "&format=json") ;;
    when (r.1 =? 200)%Z (
      data <- hits r.2 ;;
      match data with
      | [] => ret tt
      | it :: _ =>
          d <- read it ;;
          let ep :=
            [ ("authors", w_authors d);
              ("title", w_title d);
              ("journal", w_journal d);
              ("volume", w_volume d);
              ("issue", w_issue d);
              ("pages", w_pages d);
              ("year", w_year d);
              ("url", default (PStr (doi_url doi)) (w_url d)) ] in
          merge ep ;;
          return_if_complete
      end)).

Definition semanticscholar_by_doi (doi : string) : M unit :=
  try_except (
    r <- http_get SemanticScholar
           ("https://api.semanticscholar.org/graph/v1/paper/DOI:" +:+ doi
            +:+ "?fields=title,year,venue,url,authors") ;;
    when (r.1 =? 200)%Z (
      s <- the_work r.2 ;;
      let ss :=
        [ ("authors", or_none (w_authors s));
          ("title", w_title s);
          ("journal", w_journal s);
          ("year", w_year s);
          ("url", py_or (default PNone (w_url s)) (PStr (doi_url doi))) ] in
      merge ss ;;
      return_if_complete)).

(** The adapters in the order the function runs them. *)
Definition doi_chain (doi email : string) : list (M unit) :=
  [ openalex_by_doi doi; sleep;
    datacite_by_doi doi;
    crossref_by_doi doi;
    unpaywall_by_doi doi email;
    europepmc_by_doi doi;
    semanticscholar_by_doi doi ].

(** [if not meta["url"]: meta["url"] = ...] and [return meta]. *)
Definition doi_fallback (doi : string) : M unit :=
  m <- get_meta ;;
  match m !! "url" with
  | None => raise
  | Some u =>
      when (negb (truthy u)) (set_meta (<["url" := PStr (doi_url doi)]> m)) ;;
      m <- get_meta ;;
      return_ m
  end.

Definition doi_fields : list string :=
  ["authors"; "title"; "journal"; "volume"; "issue"; "pages"; "year"; "url"].

Definition doi_start (doi : string) : state :=
  {| st_meta := none_dict doi_fields; st_doi := PStr doi; st_log := [] |}.

Definition fetch_metadata_from_doi (doi : pyval) (email : string)
  : result * list (provider * string) :=
  match doi with
  | PStr d =>
      if negb (truthy (PStr (strip d))) then (Returned None, [])
      else
        let doi := strip d in
        call (seq (doi_chain doi email) ;; doi_fallback doi) (doi_start doi)
  | _ => (Returned None, [])
  end.

(** *** [fetch_metadata_from_title] *)

(** [f"https://doi.org/{doi}" if doi else other]. *)
Definition doi_url_or (doi other : pyval) : pyval :=
  if truthy doi then PStr (doi_url (py_str doi)) else other.

Definition openalex_by_title (title : string) : M unit :=
  try_except (
    let q := quote title in
    r <- http_get OpenAlex ("https://api.openalex.org/works?filter=title.search:" +:+ q) ;;
    when (r.1 =? 200)%Z (
      results <- hits r.2 ;;
      match results with
      | [] => ret tt
      | it :: _ =>
          set_doi (normalize_doi (raw_doi it)) ;;
          data <- read it ;;
          doi <- get_doi ;;
          let oa :=
            [ ("doi", doi);
              ("authors", or_none (w_authors data));
              ("title", w_title data);
              ("journal", w_journal data);
              ("volume", w_volume data);
              ("issue", w_issue data);
              ("pages", w_pages data);
              ("year", w_year data);
              ("url", doi_url_or doi (default PNone (w_url data))) ] in
          merge oa ;;
          return_if_complete
      end)).

(** [doi = meta.get("doi")]. *)
Definition doi_from_meta : M unit :=
  m <- get_meta ;; set_doi (dict_get m "doi").

Definition crossref_by_title (title : string) : M unit :=
  doi <- get_doi ;;
  when (negb (truthy doi)) (
    try_except (
      let q := quote title in
      r <- http_get Crossref
             ("https://api.crossref.org/works?query.title=" +:+ q +:+ "&rows=1") ;;
      when (r.1 =? 200)%Z (
        items <- hits r.2 ;;
        match items with
        | [] => ret tt
        | it :: _ =>
            set_doi (normalize_doi (raw_doi it)) ;;
            item <- read it ;;
            doi <- get_doi ;;
            let cr :=
              [ ("doi", doi);
                ("authors", or_none (w_authors item));
                ("title", w_title item);
                ("journal", w_journal item);
                ("volume", w_volume item);
                ("issue", w_issue item);
                ("pages", w_pages item);
                ("year", w_year item);
                ("url", doi_url_or doi PNone) ] in
            merge cr ;;
            return_if_complete
        end))).

Definition europepmc_by_title (title : string) : M unit :=
  doi <- get_doi ;;
  when (negb (truthy doi)) (
    try_except (
      let q := quote title in
      r <- http_get EuropePMC
             ("https://www.ebi.ac.uk/europepmc/webservices/rest/search?query="
              +:+ q +:+ "&format=json&pageSize=1") ;;
      when (r.1 =? 200)%Z (
        results <- hits r.2 ;;
        match results with
        | [] => ret tt
        | it :: _ =>
            let normalized_doi := normalize_doi (raw_doi it) in
            d <- read it ;;
            let ep :=
              [ ("doi", normalized_doi);
                ("authors", w_authors d);
                ("title", w_title d);
                ("journal", w_journal d);
                ("volume", w_volume d);
                ("issue", w_issue d);
                ("pages", w_pages d);
                ("year", w_year d);
                ("url", default PNone (w_url d)) ] in
            merge ep ;;
            doi_from_meta ;;
            return_if_complete
        end))).

(** [doi.lower()] raises when [doi] is not a string. *)
Definition lower_of (doi : pyval) : M string :=
  match doi with
  | PStr d => ret (lower d)
  | _ => raise
  end.

Definition datacite_by_title : M unit :=
  doi <- get_doi ;;
  when (truthy doi) (
    try_except (
      l <- lower_of doi ;;
      r <- http_get DataCite ("https://api.datacite.org/dois/" +:+ l) ;;
      when (r.1 =? 200)%Z (
        d <- the_work r.2 ;;
        let dc :=
          [ ("authors", or_none (w_authors d));
            ("title", w_title d);
            ("journal", w_journal d);
            ("year", w_year d);
            ("url", py_or (default PNone (w_url d)) (PStr (doi_url (py_str doi)))) ] in
        merge dc ;;
        return_if_complete))).

Definition semanticscholar_by_title (title : string) : M unit :=
  try_except (
    doi <- get_doi ;;
    let url :=
      if truthy doi then
        "https://api.semanticscholar.org/graph/v1/paper/DOI:" +:+ py_str doi
        +:+ "?fields=title,year,venue,url,authors"
      else
        "https://api.semanticscholar.org/graph/v1/paper/search?query="
        +:+ quote title
        +:+ "&limit=1&fields=title,year,venue,url,authors,externalIds" in
    r <- http_get SemanticScholar url ;;
    when (r.1 =? 200)%Z (
      data <- hits r.2 ;;
      match data with
      | [] => raise
      | it :: _ =>
          let fetched_doi := normalize_doi (raw_doi it) in
          set_doi (py_or doi fetched_doi) ;;
          s <- read it ;;
          doi <- get_doi ;;
          let ss :=
            [ ("doi", doi);
              ("authors", or_none (w_authors s));
              ("title", w_title s);
              ("journal", w_journal s);
              ("year", w_year s);
              ("url", py_or (default PNone (w_url s)) (doi_url_or doi PNone)) ] in
          merge ss
      end)).

(** The adapters in the order the function runs them. *)
Definition title_chain (title : string) : list (M unit) :=
  [ openalex_by_title title; sleep; doi_from_meta;
    crossref_by_title title;
    europepmc_by_title title;
    datacite_by_title;
    semanticscholar_by_title title ].

(** [if meta.get("doi") and not meta.get("url"): meta["url"] = ...] and
    [return meta]. *)
Definition title_fallback : M unit :=
  m <- get_meta ;;
  when (truthy (dict_get m "doi") && negb (truthy (dict_get m "url")))
    (set_meta (<["url" := PStr (doi_url (py_str (dict_get m "doi")))]> m)) ;;
  m <- get_meta ;;
  return_ m.

Definition title_fields : list string :=
  ["doi"; "authors"; "title"; "journal"; "volume"; "issue"; "pages"; "year"; "url"].

Definition title_start : state :=
  {| st_meta := none_dict title_fields; st_doi := PNone; st_log := [] |}.

Definition fetch_metadata_from_title (title : pyval)
  : result * list (provider * string) :=
  match title with
  | PStr t =>
      if negb (truthy (PStr (strip t))) then (Returned None, [])
      else
        let title := clean_title t in
        call (seq (title_chain title) ;; title_fallback) title_start
  | _ => (Returned None, [])
  end.

End Engines.

(** ** The ingestion pipeline: rows and cells

    A row of a spreadsheet is a pandas [Series]: a dict from column names
    to cells. *)

(** [a == b] on scalars. *)
Definition py_eq (a b : pyval) : bool :=
  match a, b with
  | PNone, PNone => true
  | PStr x, PStr y => String.eqb x y
  | PInt x, PInt y | PInt x, PFloat y
  | PFloat x, PInt y | PFloat x, PFloat y => (x =? y)%Z
  | _, _ => false
  end.

(** [pd.isna(v)]. *)
Definition pd_isna (v : pyval) : bool :=
  match v with
  | PNone | PNaN => true
  | _ => false
  end.

(** [is_empty(value)]. *)
Definition is_empty (value : pyval) : bool :=
  pd_isna value || py_eq value (PStr "") || py_eq value (PStr "NaN")
  || (is_str value && negb (truthy (PStr (strip (py_str value))))).

(** [col in row.index]. *)
Definition in_index (row : gmap string pyval) (col : string) : bool :=
  bool_decide (is_Some (row !! col)).

(** [bool(metadata)] for [None] or a dict. *)
Definition dict_truthy (metadata : option (gmap string pyval)) : bool :=
  match metadata with
  | None => false
  | Some m => negb (bool_decide (m = ∅))
  end.

Definition field_mapping (prefix : string) : list (string * string) :=
  [ ("authors", prefix +:+ "_authors");
    ("title", prefix +:+ "_title");
    ("journal", prefix +:+ "_journal");
    ("volume", prefix +:+ "_volume");
    ("issue", prefix +:+ "_issue");
    ("pages", prefix +:+ "_pages");
    ("year", prefix +:+ "_year") ].

(** The body of the loop of [enrich_from_metadata]. *)
Definition fill_column (metadata : gmap string pyval)
    (row : gmap string pyval) (mc : string * string) : gmap string pyval :=
  match row !! mc.2 with
  | Some current =>
      if is_empty current && truthy (dict_get metadata mc.1)
      then <[mc.2 := dict_get metadata mc.1]> row
      else row
  | None => row
  end.

(** [enrich_from_metadata(row, prefix, metadata)]. *)
Definition enrich_from_metadata (row : gmap string pyval) (prefix : string)
    (metadata : option (gmap string pyval)) : gmap string pyval :=
  match metadata with
  | Some m =>
      if dict_truthy metadata then foldl (fill_column m) row (field_mapping prefix)
      else row
  | None => row
  end.

(** [sanity_check_metadata(row, prefix, metadata)]. *)
Definition sanity_check_metadata (row : gmap string pyval) (prefix : string)
    (metadata : option (gmap string pyval)) : bool :=
  match metadata with
  | Some m =>
      if negb (dict_truthy metadata) then false
      else
        let col_name := prefix +:+ "_year" in
        match row !! col_name with
        | Some year =>
            if negb (is_empty year) then
              let existing_value := strip (py_str year) in
              let fetched_value := strip (py_str (default (PStr "") (m !! "year"))) in
              if truthy (PStr fetched_value) then
                if String.eqb (replace_empty existing_value ".0")
                              (replace_empty fetched_value ".0")
                then true else false
              else true
            else true
        | None => true
        end
  | None => false
  end.

(** ** The master dataset

    A [DataFrame] is its column names and its rows; a cell a row does not
    have is the missing value NaN. *)

Record DataFrame : Type := {
  columns : list string;
  rows : list (gmap string pyval);
}.


(** [df.empty]. *)
Definition df_empty (df : DataFrame) : bool :=
  match columns df, rows df with
  | [], _ | _, [] => true
  | _, _ => false
  end.

Definition cell (r : gmap string pyval) (c : string) : pyval :=
  default PNaN (r !! c).

(** The rows [df.iterrows()] hands out: each has every column of the
    frame in its index. *)
Definition iterrows (df : DataFrame) : list (gmap string pyval) :=
  (fun r => list_to_map ((fun c => (c, cell r c)) <$> columns df)) <$> rows df.

(** One cell of [master_df[col] == x]: pandas compares element by
    element, and a missing value (NaN, None) on either side compares
    unequal. *)
Definition pd_eq (c x : pyval) : bool :=
  match c, x with
  | PStr a, PStr b => String.eqb a b
  | PInt a, PInt b | PInt a, PFloat b
  | PFloat a, PInt b | PFloat a, PFloat b => (a =? b)%Z
  | _, _ => false
  end.

(** [check_duplicate(row, master_df)]; [None] is the [KeyError] of
    [master_df[col]] for a column the frame does not have. *)
Definition check_duplicate (row : gmap string pyval) (master_df : DataFrame)
  : option bool :=
  if df_empty master_df then Some false
  else
    let original_check := dict_get row "original_url" in
    let replication_check := dict_get row "replication_url" in
    let description_check := dict_get row "description" in
    if bool_decide ("original_url" ∈ columns master_df)
       && bool_decide ("replication_url" ∈ columns master_df)
       && bool_decide ("description" ∈ columns master_df)
    then
      let matches :=
        filter (fun r =>
                  pd_eq (cell r "original_url") original_check
                  && pd_eq (cell r "replication_url") replication_check
                  && pd_eq (cell r "description") description_check = true)
               (rows master_df) in
      Some (0 <? length matches)%nat
    else None.

(** *** Column types

    pandas stores a column of whole numbers as [int64], a column of floats
    and missing values as [float64] and any other column as [object],
    whose cells are the Python values themselves; [dtype_of] reads the
    type of a column off its cells.  A whole number that comes to stand
    in a [float64] column becomes the float of its value, and so does
    [None] become NaN. *)
Inductive dtype : Type := Int64 | Float64 | Object.

Definition is_int (v : pyval) : bool :=
  match v with PInt _ => true | _ => false end.

Definition is_float (v : pyval) : bool :=
  match v with PFloat _ | PNaN => true | _ => false end.

Definition is_none (v : pyval) : bool :=
  match v with PNone => true | _ => false end.

Definition dtype_of (cells : list pyval) : dtype :=
  if forallb is_int cells then Int64
  else if forallb is_float cells then Float64
  else Object.

Definition as_float (v : pyval) : pyval :=
  match v with
  | PInt z => PFloat z
  | PNone => PNaN
  | _ => v
  end.

(** The cells of the column [c], a column the frame does not have being
    all missing. *)
Definition column_cells (data : list (gmap string pyval)) (c : string)
  : list pyval :=
  (fun r => cell r c) <$> data.

(** The rows with the columns [floats] turned into float columns. *)
Definition retype (floats : string -> bool) (r : gmap string pyval)
  : gmap string pyval :=
  map_imap (fun c v => Some (if floats c then as_float v else v)) r.

(** The type the [DataFrame] constructor gives a column of Python
    values: [float64] when they are numbers and missing values (NaN,
    None) with a float or a missing value among them, and not all
    [None]. *)
Definition inferred_float (cells : list pyval) : bool :=
  forallb (fun v => is_int v || is_float v || is_none v) cells
  && negb (forallb is_int cells) && negb (forallb is_none cells).

(** [pd.DataFrame(data)] for a list of rows with the index [cols]. *)
Definition pd_DataFrame (cols : list string) (data : list (gmap string pyval))
  : DataFrame :=
  {| columns := cols;
     rows := retype (fun c => inferred_float (column_cells data c)) <$> data |}.

(** The type of the column [c] as [pd.concat] meets it in the frame
    [df]: a column the frame does not have is filled with NaN, and a
    column without rows is the [object] column that [pd.read_csv] makes
    of a file with a header only. *)
Definition concat_dtype (df : DataFrame) (c : string) : dtype :=
  if bool_decide (c ∈ columns df) then
    match rows df with
    | [] => Object
    | _ => dtype_of (column_cells (rows df) c)
    end
  else Float64.

(** The columns of [pd.concat([a, b])] that come out as [float64] with
    whole numbers turned into floats: those that are [int64] in one frame
    and [float64] in the other. *)
Definition concat_float (a b : DataFrame) (c : string) : bool :=
  match concat_dtype a c, concat_dtype b c with
  | Int64, Float64 | Float64, Int64 => true
  | _, _ => false
  end.

(** [sum(df.shape) == 0]: such a frame is left out of a concatenation. *)
Definition no_shape (df : DataFrame) : bool :=
  match columns df, rows df with
  | [], [] => true
  | _, _ => false
  end.

(** [pd.concat([a, b], ignore_index=True)]. *)
Definition pd_concat (a b : DataFrame) : DataFrame :=
  {| columns := columns a ++ filter (fun c => c ∉ columns a) (columns b);
     rows :=
       if no_shape a || no_shape b then rows a ++ rows b
       else (retype (concat_float a b) <$> rows a)
            ++ (retype (concat_float a b) <$> rows b) |}.

(** The last line of the warning that the loop of step 4 prints for a
    duplicate slices [row.get('description', '')[:80]]: it raises unless
    that is a text. *)
Definition warning_prints (row : gmap string pyval) : bool :=
  match row !! "description" with
  | Some v => is_str v
  | None => true
  end.

(** The body of the loop of step 4 of [ingest_data], on the pair
    ([rows_to_append], [duplicates_found]); [None] once
    [check_duplicate] or the warning has raised. *)
Definition dedup_step (master_df : DataFrame)
    (acc : option (list (gmap string pyval) * nat)) (row : gmap string pyval)
  : option (list (gmap string pyval) * nat) :=
  match acc with
  | None => None
  | Some (rows_to_append, duplicates_found) =>
      match check_duplicate row master_df with
      | None => None
      | Some true =>
          if warning_prints row then Some (rows_to_append, S duplicates_found)
          else None
      | Some false => Some (rows_to_append ++ [row], duplicates_found)
      end
  end.

(** Step 4 of [ingest_data]: the updated master and the number of
    duplicates found. *)
Definition ingest_data_append (processed_df master_df : DataFrame)
  : option (DataFrame * nat) :=
  match foldl (dedup_step master_df) (Some ([], 0)) (iterrows processed_df) with
  | None => None
  | Some (rows_to_append, duplicates_found) =>
      let updated_master_df :=
        match rows_to_append with
        | [] => master_df
        | _ =>
            let new_rows_df := pd_DataFrame (columns processed_df) rows_to_append in
            pd_concat master_df new_rows_df
        end in
      Some (updated_master_df, duplicates_found)
  end.

(** The key of de-duplication. *)
Definition triple (r : gmap string pyval) : pyval * pyval * pyval :=
  (cell r "original_url", cell r "replication_url", cell r "description").

(** The key as [check_duplicate] reads it off the row it is given. *)
Definition row_key (row : gmap string pyval) : pyval * pyval * pyval :=
  (dict_get row "original_url", dict_get row "replication_url",
   dict_get row "description").

(** ** Notions of the specification

    The year check is specified with the float artifact [.0] at the end of
    a year text.  [drop_trailing_dot0] takes one such ending away, and
    [contains old s] says that [old] occurs somewhere in [s]. *)


Fixpoint contains (old s : string) : bool :=
  match s with
  | "" => String.eqb old ""
  | String _ s' => String.prefix old s || contains old s'
  end.




(** What [pd.concat] and the [DataFrame] constructor may do to a cell
    when they settle the type of its column: leave it, turn a whole number
    into the float of its value, or turn [None] into NaN.  [same_row new
    old] says that the cells of [new] are those of [old] up to this, and
    [columnwise h] that [h] changes rows in this way, a cell by its column
    and its value only. *)
Definition same_value (new old : pyval) : Prop :=
  new = old
  \/ (exists z, old = PInt z /\ new = PFloat z)
  \/ (old = PNone /\ new = PNaN).



(** ** Notions used to state the properties of the engines *)

(** The running record still has an unfilled field. *)
Definition incomplete (s : state) : Prop := is_complete (st_meta s) = false.

(** A block that checks completeness: started on an incomplete record it
    either goes on with an incomplete record or returns the record, then
    complete; it does not raise. *)
Definition checked (b : M unit) : Prop :=
  forall s, incomplete s ->
    match b s with
    | (Normal _, s') => incomplete s'
    | (Return v, s') => v = st_meta s' /\ is_complete v = true
    | (Raise, _) => False
    end.

(** A block that always sends the requests [rq], and no other. *)
Definition sends (rq : list (provider * string)) (b : M unit) : Prop :=
  forall s, st_log (b s).2 = st_log s ++ rq.

(** A block that neither returns nor raises. *)
Definition plain (b : M unit) : Prop :=
  forall s, exists s', b s = (Normal tt, s').


(** The running record has the key ["url"]. *)
Definition has_url (s : state) : Prop := is_Some (st_meta s !! "url").




(** Title mode is given no identifier; the ones it uses come out of
    answers.  [discovered world log d]: some request of [log] was answered
    with status 200 and a first entry whose identifier normalises to
    [d]. *)
Definition discovered (world : string -> reply) (log : list (provider * string))
    (d : pyval) : Prop :=
  exists p u c it rest,
    (p, u) ∈ log /\ world u = Response c (Works (it :: rest))
    /\ c = 200%Z /\ normalize_doi (raw_doi it) = d.

Definition found (world : string -> reply) (log : list (provider * string))
    (d : pyval) : Prop :=
  truthy d = false \/ discovered world log d.



(** ** Sample worlds *)

(** Every request fails. *)
Definition world_down : string -> reply := fun _ => NetworkError.

Definition sample_work : work :=
  {| w_doi := PStr "https://doi.org/10.1/abc";
     w_authors := PStr "Ada Lovelace; Charles Babbage";
     w_title := PStr "Some Effect";
     w_journal := PStr "Journal of Effects";
     w_volume := PStr "12";
     w_issue := PStr "3";
     w_pages := PStr "45";
     w_year := PInt 2019;
     w_url := Some (PStr "https://example.org/some-effect");
     w_doi_url := PNone |}.

(** OpenAlex knows the work in full, by identifier and by title; every
    other request fails. *)
Definition world_openalex : string -> reply :=
  fun url =>
    if String.eqb url "https://api.openalex.org/works/https://doi.org/10.1/abc"
       || String.eqb url "https://api.openalex.org/works?filter=title.search:Some%20Effect"
    then Response 200 (Works [Item sample_work])
    else NetworkError.

(** A work of which the answer gives the identifier and little else. *)
Definition bare_work (doi : pyval) : work :=
  {| w_doi := doi; w_authors := PStr ""; w_title := PStr "Some Effect";
     w_journal := PNone; w_volume := PNone; w_issue := PNone;
     w_pages := PNone; w_year := PInt 2019; w_url := None;
     w_doi_url := PNone |}.

Definition crossref_some_effect : string :=
  "https://api.crossref.org/works?query.title=Some%20Effect&rows=1".

(** Semantic Scholar knows the paper by its identifier; every other
    request fails. *)
Definition world_semanticscholar : string -> reply :=
  fun url =>
    if String.eqb url
         "https://api.semanticscholar.org/graph/v1/paper/DOI:10.1/abc?fields=title,year,venue,url,authors"
    then Response 200 (Works [Item (bare_work PNone)])
    else NetworkError.

(** Three worlds that differ in the answer of Crossref to the title
    search only: a hit that reads in full, a hit whose identifier reads
    while its author list does not, and no connection. *)
Definition world_crossref_hit : string -> reply :=
  fun url =>
    if String.eqb url crossref_some_effect
    then Response 200 (Works [Item (bare_work (PStr "10.1/abc"))])
    else world_semanticscholar url.

Definition world_crossref_broken : string -> reply :=
  fun url =>
    if String.eqb url crossref_some_effect
    then Response 200 (Works [BrokenItem (PStr "10.1/abc")])
    else world_semanticscholar url.

Definition world_crossref_failed : string -> reply :=
  fun url =>
    if String.eqb url crossref_some_effect
    then NetworkError
    else world_semanticscholar url.

(** ** The ingestion pipeline: one row

    [extract_doi_from_url], [needs_enrichment] and [process_row] of
    [ingestion_engine.py]. *)

(** [extract_doi_from_url(url)]. *)
Definition extract_doi_from_url (url : pyval) : pyval :=
  match url with
  | PStr s =>
      if negb (truthy (PStr (strip s))) then PNone
      else
        let url := strip s in
        if startswith url "http://doi.org/" then
          PStr (replace_empty url "http://doi.org/")
        else if startswith url "https://doi.org/" then
          PStr (replace_empty url "https://doi.org/")
        else PNone
  | _ => PNone
  end.

Definition fields_to_check : list string :=
  ["authors"; "title"; "journal"; "volume"; "issue"; "pages"; "year"].

Definition capital_letters : list string :=
  ["A"; "B"; "C"; "D"; "E"; "F"; "G"; "H"; "I"; "J"; "K"; "L"; "M";
   "N"; "O"; "P"; "Q"; "R"; "S"; "T"; "U"; "V"; "W"; "X"; "Y"; "Z"].

(** [any(f" {c}. " in authors or authors.startswith(f"{c}. ") for c in ...)]. *)
Definition abbreviated_authors (authors : string) : bool :=
  existsb (fun c => contains (" " +:+ c +:+ ". ") authors
                    || startswith authors (c +:+ ". "))
    capital_letters.

(** [needs_enrichment(row, prefix)]. *)
Definition needs_enrichment (row : gmap string pyval) (prefix : string) : bool :=
  if existsb (fun field =>
                match row !! (prefix +:+ "_" +:+ field) with
                | Some v => is_empty v
                | None => false
                end) fields_to_check
  then true
  else if (match dict_get row (prefix +:+ "_authors") with
           | PStr authors => truthy (PStr (strip authors)) && abbreviated_authors authors
           | _ => false
           end)
  then true
  else match dict_get row (prefix +:+ "_journal") with
       | PStr journal =>
           (String.length (strip journal) <? 10)%nat && contains "." journal
       | _ => false
       end.

(** What [process_row] gives back: the row, or an exception that leaves
    the function. *)
Inductive processed : Type :=
  | RowOut (row : gmap string pyval)
  | RowRaised.

(** The metadata a lookup hands to its caller. *)
Definition lookup_result (r : result) : option (option (gmap string pyval)) :=
  match r with
  | Returned v => Some v
  | Raised => None
  end.

(** One half of [process_row].  The two halves are the same text, for
    [prefix] ["original"] and ["replication"], but for the message printed
    before the search by title: the replication half prints
    [row.get('replication_title')[:50]], and the slice raises when the
    title is not a string ([sliced] says which half it is). *)
Definition process_entity (world : string -> reply) (prefix : string)
    (sliced : bool) (row : gmap string pyval)
  : processed * list (provider * string) :=
  let url := dict_get row (prefix +:+ "_url") in
  let doi := extract_doi_from_url url in
  if truthy doi && needs_enrichment row prefix then
    let '(r, log) := fetch_metadata_from_doi world doi "your_email@example.com" in
    match lookup_result r with
    | Some metadata => (RowOut (enrich_from_metadata row prefix metadata), log)
    | None => (RowRaised, log)
    end
  else if is_empty url && negb (is_empty (dict_get row (prefix +:+ "_title"))) then
    if sliced && negb (is_str (dict_get row (prefix +:+ "_title"))) then (RowRaised, [])
    else
      let '(r, log) := fetch_metadata_from_title world (dict_get row (prefix +:+ "_title")) in
      match lookup_result r with
      | Some metadata =>
          if dict_truthy metadata
             && truthy (dict_get (default ∅ metadata) "doi") then
            if sanity_check_metadata row prefix metadata then
              let normalized_doi := normalize_doi (dict_get (default ∅ metadata) "doi") in
              if truthy normalized_doi then
                let row := <[prefix +:+ "_url" :=
                               PStr ("http://doi.org/" +:+ py_str normalized_doi)]> row in
                (RowOut (enrich_from_metadata row prefix metadata), log)
              else (RowOut row, log)
            else (RowOut row, log)
          else (RowOut row, log)
      | None => (RowRaised, log)
      end
  else (RowOut row, []).

(** [process_row(row, row_idx, total_rows)]. *)
Definition process_row (world : string -> reply) (row : gmap string pyval)
  : processed * list (provider * string) :=
  match process_entity world "original" false row with
  | (RowOut row, log1) =>
      let '(r, log2) := process_entity world "replication" true row in
      (r, log1 ++ log2)
  | (RowRaised, log1) => (RowRaised, log1)
  end.

(** The columns of one entity that [process_row] may write. *)
Definition entity_columns (prefix : string) : list string :=
  (prefix +:+ "_url") :: (field_mapping prefix).*2.

(** A link that is there and is not a [doi.org] link. *)
Definition foreign_url (u : string) : Prop :=
  strip u <> "" /\ u <> "NaN"
  /\ startswith (strip u) "http://doi.org/" = false
  /\ startswith (strip u) "https://doi.org/" = false.

(** ** Columns of the master dataset

    [filter_columns], [reorder_columns] and [normalize_discipline_column]
    of [ingestion_engine.py].  [valid_columns] is the column [column_name]
    of the data dictionary, which the functions read from a file. *)

(** [df[cols]]: for every label of [cols], in that order, the columns of
    the frame with that label, every one of them where the frame repeats
    the label.  A label that the frame lacks raises [KeyError]; the two
    functions below select labels of the frame only. *)
Definition select_columns (df : DataFrame) (cols : list string) : DataFrame :=
  {| columns := cols ≫= (fun c => filter (fun c' => c' = c) (columns df));
     rows := (fun r => filter (fun kv => kv.1 ∈ cols) r) <$> rows df |}.

(** [filter_columns(df)]. *)
Definition filter_columns (df : DataFrame) (valid_columns : list string) : DataFrame :=
  let columns_to_keep := filter (fun col => col ∈ columns df) valid_columns in
  select_columns df columns_to_keep.

(** [reorder_columns(df)]. *)
Definition reorder_columns (df : DataFrame) (valid_columns : list string) : DataFrame :=
  let columns_in_order := filter (fun col => col ∈ columns df) valid_columns in
  let remaining_columns := filter (fun col => col ∉ columns_in_order) (columns df) in
  let final_column_order := columns_in_order ++ remaining_columns in
  select_columns df final_column_order.

(** [x.lower() if pd.notna(x) and isinstance(x, str) else x]. *)
Definition lower_if_text (x : pyval) : pyval :=
  match x with
  | PStr s => PStr (lower s)
  | _ => x
  end.

(** [normalize_discipline_column(df)]. *)
Definition normalize_discipline_column (df : DataFrame) : DataFrame :=
  if bool_decide ("discipline" ∈ columns df) then
    {| columns := columns df;
       rows := (fun r => <["discipline" := lower_if_text (cell r "discipline")]> r)
               <$> rows df |}
  else df.

(** ** The citation of the website

    [format_authors] of [generate_citation_html_for_website.py]. *)

(** [s.split(";")[0]]: the text before the first semicolon. *)
Fixpoint before_semicolon (s : string) : string :=
  match s with
  | "" => ""
  | String c s' => if Ascii.eqb c ";" then "" else String c (before_semicolon s')
  end.

(** [s.split()]: the runs of characters that are not whitespace; [cur]
    is the run being read. *)
Fixpoint split_words (cur : string) (s : string) : list string :=
  match s with
  | "" => match cur with "" => [] | _ => [cur] end
  | String c s' =>
      if is_space c then
        match cur with
        | "" => split_words "" s'
        | _ => cur :: split_words "" s'
        end
      else split_words (cur +:+ String c "") s'
  end.

(** [format_authors(author_str)]; [None] is the [IndexError] of
    [parts[0]] on an empty list. *)
Definition format_authors (author_str : pyval) : option string :=
  match author_str with
  | PStr s =>
      if negb (truthy (PStr (strip s))) then Some ""
      else
        let first_author := strip (before_semicolon s) in
        let parts := split_words "" first_author in
        if (2 <=? length parts)%nat then
          match parts, last parts with
          | String f _ :: _, Some last =>
              let first := String f "." in
              let name := last +:+ " " +:+ first in
              Some (name +:+ " <i>et al.</i>")
          | _, _ => None
          end
        else
          match parts with
          | name :: _ => Some name
          | [] => None
          end
  | _ => Some ""
  end.

(** ** Notions used to state what the engines return *)

(** The record has the keys [fields], and no other. *)
Definition shaped (fields : list string) (m : gmap string pyval) : Prop :=
  forall k, is_Some (m !! k) <-> k ∈ fields.

(** No field of the record holds [""] or ["NaN"]: each is [None] or a
    value [enrich] takes for filled. *)
Definition clean (m : gmap string pyval) : Prop :=
  forall k v, m !! k = Some v -> v = PNone \/ unfilled v = false.

(** A block that does to the running record what a merge of items with
    keys among [fields] does, however it ends. *)
Definition merges (fields : list string) (b : M unit) : Prop :=
  forall s, exists new,
    Forall (fun kv => kv.1 ∈ fields) new
    /\ st_meta (b s).2 = enrich (st_meta s) new.

(** Crossref and Semantic Scholar both know the work, under different
    titles; every other request fails. *)
Definition world_two_titles : string -> reply :=
  fun url =>
    if String.eqb url "https://api.crossref.org/works/10.1/abc"
    then Response 200 (Works [Item (bare_work PNone)])
    else if String.eqb url
         "https://api.semanticscholar.org/graph/v1/paper/DOI:10.1/abc?fields=title,year,venue,url,authors"
    then Response 200 (Works [Item sample_work])
    else NetworkError.

(** * Properties *)

(** ** Text *)

Lemma lstrip_blank (s : string) : blank s = true -> lstrip s = "".
Proof.
  induction s as [|c s IH]; simpl; [done|].
  intros [Hc Hs]%andb_true_iff. rewrite Hc. by apply IH.
Qed.

Lemma strip_blank (s : string) : blank s = true -> strip s = "".
Proof. intros H. unfold strip. by rewrite lstrip_blank. Qed.

Lemma truthy_str (s : string) : truthy (PStr s) = true <-> s <> "".
Proof.
  simpl. rewrite negb_true_iff. split.
  - intros H ->. by rewrite String.eqb_refl in H.
  - intros H. by apply String.eqb_neq.
Qed.

Lemma append_nil (s : string) : "" +:+ s = s.
Proof. reflexivity. Qed.

Lemma append_cons (c : ascii) (a s : string) :
  String c a +:+ s = String c (a +:+ s).
Proof. reflexivity. Qed.

Lemma rstrip_empty (s : string) : rstrip s = "" -> blank s = true.
Proof.
  induction s as [|c s IH]; [done|]. simpl.
  destruct (rstrip s) as [|c' r]; [|done].
  destruct (is_space c); [|done]. intros _. by rewrite IH.
Qed.

Lemma lstrip_blank_inv (s : string) : blank (lstrip s) = true -> blank s = true.
Proof.
  induction s as [|c s IH]; [done|]. simpl.
  destruct (is_space c) eqn:Hc; [exact IH|].
  simpl. by rewrite Hc.
Qed.

Lemma strip_empty_iff (s : string) : strip s = "" <-> blank s = true.
Proof.
  split; [|apply strip_blank].
  intros H. apply lstrip_blank_inv, rstrip_empty, H.
Qed.


Lemma not_blank_strip (s : string) : blank s = false -> strip s <> "".
Proof. intros H Hs. apply strip_empty_iff in Hs. congruence. Qed.






(** Deleting [old] from a text that starts with [old] deletes it there and
    goes on with the rest. *)
Lemma remove_from_skip (old a rest : string) :
  remove_from old (String.length a) (a +:+ rest) = remove_from old 0 rest.
Proof.
  induction a as [|c a IH].
  - by rewrite append_nil.
  - rewrite append_cons. simpl. exact IH.
Qed.

Lemma prefix_app (p rest : string) : String.prefix p (p +:+ rest) = true.
Proof.
  induction p as [|c p IH].
  - rewrite append_nil. by destruct rest.
  - rewrite append_cons. simpl.
    destruct (ascii_dec c c); [exact IH | congruence].
Qed.

Lemma replace_empty_prefix (p rest : string) :
  replace_empty (p +:+ rest) p = replace_empty rest p.
Proof.
  destruct p as [|c p]; [done|].
  unfold replace_empty.
  rewrite append_cons. cbn [remove_from].
  rewrite <- append_cons, prefix_app.
  replace (String.length (String c p) - 1) with (String.length p) by (simpl; lia).
  apply remove_from_skip.
Qed.

(** ** The identifier normaliser *)

Lemma normalize_doi_blank (v : pyval) :
  (forall s, v = PStr s -> blank s = true) -> normalize_doi v = PNone.
Proof.
  intros H. destruct v as [| | | |s]; try done.
  simpl. by rewrite (strip_blank s (H s eq_refl)).
Qed.

Lemma normalize_doi_bare (s : string) :
  is_bare s = true -> normalize_doi (PStr s) = PStr s.
Proof.
  unfold is_bare. simpl.
  intros [[Hne Hstrip]%andb_true_iff Hp]%andb_true_iff.
  apply String.eqb_eq in Hstrip.
  repeat (apply andb_true_iff in Hp as [?%negb_true_iff Hp]).
  unfold normalize_doi. rewrite Hstrip. simpl.
  rewrite Hne. simpl.
  repeat match goal with H : startswith s _ = false |- _ => rewrite H; clear H end.
  by rewrite Hne.
Qed.

(** What [normalize_doi] does to a text whose trimmed form starts with a
    known prefix: the prefix goes, and so does every later occurrence of
    it. *)
Lemma normalize_doi_prefixed (s p rest : string) :
  p ∈ known_prefixes ->
  strip s = p +:+ rest ->
  normalize_doi (PStr s) =
    if truthy (PStr (replace_empty rest p)) then PStr (replace_empty rest p) else PNone.
Proof.
  intros Hp Hs. unfold normalize_doi, startswith. rewrite Hs.
  unfold known_prefixes in Hp.
  repeat (apply elem_of_cons in Hp as [-> | Hp]);
    [ .. | by apply elem_of_nil in Hp ];
    match goal with
    | |- context [truthy (PStr (?q +:+ rest))] =>
        change (truthy (PStr (q +:+ rest))) with true
    end;
    cbn [negb];
    repeat match goal with
      | |- context [String.prefix ?q (?q +:+ rest)] =>
          rewrite (prefix_app q rest)
      | |- context [String.prefix ?q (?q' +:+ rest)] =>
          let b := eval vm_compute in (String.prefix q (q' +:+ rest)) in
          change (String.prefix q (q' +:+ rest)) with b
      end;
    by rewrite replace_empty_prefix.
Qed.

(** C5, as amended.  The three round-trip examples hold; normalising an
    already-bare identifier (not blank, no surrounding whitespace, none of
    the four known prefixes in front) gives it back, so that normalising
    it twice is the same as once; and every input that is empty, blank or
    not a string gives [None]. *)
Theorem normalize_doi_round_trip :
  normalize_doi (PStr "https://doi.org/10.1/x") = PStr "10.1/x"
  /\ normalize_doi (PStr "http://doi.org/10.1/x") = PStr "10.1/x"
  /\ normalize_doi (PStr "10.1/x") = PStr "10.1/x"
  /\ (forall s, is_bare s = true ->
        normalize_doi (PStr s) = PStr s
        /\ normalize_doi (normalize_doi (PStr s)) = normalize_doi (PStr s))
  /\ (forall v, (forall s, v = PStr s -> blank s = true) ->
        normalize_doi v = PNone).
Proof.
  repeat split; try reflexivity.
  - by apply normalize_doi_bare.
  - by rewrite !normalize_doi_bare.
  - apply normalize_doi_blank.
Qed.

Lemma normalize_doi_round_trip_witness :
  is_bare "10.1234/Ab.C" = true
  /\ normalize_doi (normalize_doi (PStr "10.1234/Ab.C")) = PStr "10.1234/Ab.C"
  /\ normalize_doi (PStr "   ") = PNone
  /\ normalize_doi (PInt 7) = PNone.
Proof.
  destruct normalize_doi_round_trip as (_ & _ & _ & Hbare & Hnone).
  split; [reflexivity|].
  destruct (Hbare "10.1234/Ab.C" eq_refl) as [H1 H2].
  split; [by rewrite H2, H1|].
  split; apply Hnone; intros s Hs; [by injection Hs as <- | discriminate Hs].
Defined.

(** C5 as stated fails: a text with two resolver prefixes in a row loses
    one of them at each pass, so a second pass changes the result of the
    first. *)
Lemma normalize_doi_not_idempotent :
  ~ (forall s : string,
       normalize_doi (normalize_doi (PStr s)) = normalize_doi (PStr s)).
Proof.
  intros H. specialize (H "http://doi.org/https://doi.org/10.1/x").
  vm_compute in H. discriminate H.
Qed.

(** C6 at the failing input.  The text starts with the known prefix
    ["https://doi.org/"] and carries no whitespace around it; what follows
    the prefix is ["10.1/ahttps://doi.org/b"], and the normaliser returns
    ["10.1/ab"]: the later occurrence of the prefix is deleted too. *)
Theorem normalize_doi_deletes_inner_prefix :
  let s := "https://doi.org/10.1/ahttps://doi.org/b" in
  let rest := "10.1/ahttps://doi.org/b" in
  s = "https://doi.org/" +:+ rest
  /\ "https://doi.org/" ∈ known_prefixes
  /\ strip s = s
  /\ normalize_doi (PStr s) = PStr "10.1/ab"
  /\ normalize_doi (PStr s) <> PStr rest.
Proof.
  repeat split; try reflexivity.
  - unfold known_prefixes. set_solver.
  - vm_compute. discriminate.
Qed.

(** Where the rest holds no further occurrence of the prefix, the rest is
    what comes back. *)
Lemma normalize_doi_prefixed_clean (s p rest : string) :
  p ∈ known_prefixes ->
  strip s = p +:+ rest ->
  replace_empty rest p = rest ->
  rest <> "" ->
  normalize_doi (PStr s) = PStr rest.
Proof.
  intros Hp Hs Hclean Hne.
  rewrite (normalize_doi_prefixed s p rest Hp Hs), Hclean.
  by apply truthy_str in Hne as ->.
Qed.

(** ** The merge *)

Lemma enrich_foldl (current : gmap string pyval) (new : list (string * pyval)) :
  enrich current new = foldl enrich_item current new.
Proof. by destruct new. Qed.

Lemma dict_get_insert (m : gmap string pyval) (k k' : string) (v : pyval) :
  dict_get (<[k := v]> m) k' = if decide (k = k') then v else dict_get m k'.
Proof.
  unfold dict_get. rewrite lookup_insert. by destruct (decide (k = k')).
Qed.

Lemma enrich_item_keeps (current : gmap string pyval) (kv : string * pyval) (k : string) :
  unfilled (dict_get current k) = false ->
  enrich_item current kv !! k = current !! k.
Proof.
  intros Hk. destruct kv as [k' v']. unfold enrich_item. simpl.
  destruct (unfilled (dict_get current k')) eqn:Hcur; simpl; [|done].
  destruct (unfilled v'); simpl; [done|].
  apply lookup_insert_ne. intros ->. congruence.
Qed.

Lemma enrich_item_changes (current : gmap string pyval) (kv : string * pyval) (k : string) :
  enrich_item current kv !! k <> current !! k ->
  kv.1 = k /\ unfilled (dict_get current k) = true /\ unfilled kv.2 = false
  /\ enrich_item current kv !! k = Some kv.2.
Proof.
  destruct kv as [k' v']. unfold enrich_item. simpl.
  destruct (unfilled (dict_get current k')) eqn:Hcur; simpl; [|done].
  destruct (unfilled v') eqn:Hv; simpl; [done|].
  destruct (decide (k' = k)) as [<-|Hne].
  - intros _. by rewrite lookup_insert_eq.
  - by rewrite lookup_insert_ne.
Qed.

Lemma foldl_enrich_keeps (new : list (string * pyval)) (current : gmap string pyval) (k : string) :
  unfilled (dict_get current k) = false ->
  foldl enrich_item current new !! k = current !! k.
Proof.
  revert current. induction new as [|kv new IH]; intros current Hk; [done|].
  simpl. rewrite IH.
  - by apply enrich_item_keeps.
  - unfold dict_get. by rewrite enrich_item_keeps.
Qed.

Lemma foldl_enrich_changes (new : list (string * pyval)) (current : gmap string pyval) (k : string) :
  foldl enrich_item current new !! k <> current !! k ->
  unfilled (dict_get current k) = true
  /\ exists v, (k, v) ∈ new /\ unfilled v = false
               /\ foldl enrich_item current new !! k = Some v.
Proof.
  revert current. induction new as [|kv new IH]; intros current Hk; [done|].
  simpl in *.
  destruct (decide (enrich_item current kv !! k = current !! k)) as [Hsame|Hdiff].
  - rewrite <- Hsame in Hk. destruct (IH _ Hk) as (Hu & v & Hin & Hv & Hres).
    split.
    + unfold dict_get in *. by rewrite <- Hsame.
    + exists v. split; [by right|done].
  - destruct (enrich_item_changes _ _ _ Hdiff) as (Hkey & Hu & Hv & Hres).
    split; [done|]. exists kv.2. split; [|split; [done|]].
    + destruct kv as [k' v']. simpl in *. subst. by left.
    + rewrite foldl_enrich_keeps; [done|].
      unfold dict_get. by rewrite Hres.
Qed.

(** C1.  Merging a provider's record [new] into the running record
    [current] leaves every field that already holds a non-empty value
    (not [None], not [""], not ["NaN"]) as it is, whatever [new] holds for
    it; a field that does change was unset or empty before and now holds
    a non-empty value of [new]. *)
Theorem enrich_fill_only_if_empty
    (current : gmap string pyval) (new : list (string * pyval)) (k : string) :
  (unfilled (dict_get current k) = false ->
     enrich current new !! k = current !! k)
  /\ (enrich current new !! k <> current !! k ->
        unfilled (dict_get current k) = true
        /\ exists v, (k, v) ∈ new /\ unfilled v = false
                     /\ enrich current new !! k = Some v).
Proof.
  rewrite enrich_foldl. split.
  - apply foldl_enrich_keeps.
  - apply foldl_enrich_changes.
Qed.

Lemma enrich_fill_only_if_empty_witness :
  let current : gmap string pyval :=
    <["title" := PStr "A study"]> (<["year" := PNone]> (<["pages" := PStr "NaN"]> ∅)) in
  let new := [("title", PStr "Another"); ("year", PInt 2019); ("pages", PStr "")] in
  unfilled (dict_get current "title") = false
  /\ enrich current new !! "title" = Some (PStr "A study")
  /\ enrich current new !! "year" = Some (PInt 2019)
  /\ enrich current new !! "pages" = Some (PStr "NaN").
Proof.
  intros current new.
  split; [reflexivity|]. split; [|split; reflexivity].
  rewrite (proj1 (enrich_fill_only_if_empty current new "title") eq_refl).
  reflexivity.
Defined.

Lemma foldl_enrich_fills (new : list (string * pyval)) (current : gmap string pyval)
    (k : string) (v : pyval) :
  (k, v) ∈ new -> unfilled v = false ->
  unfilled (dict_get (foldl enrich_item current new) k) = false.
Proof.
  revert current. induction new as [|kv new IH]; intros current Hin Hv.
  - by apply elem_of_nil in Hin.
  - simpl. apply elem_of_cons in Hin as [<- | Hin]; [|by apply IH].
    assert (unfilled (dict_get (enrich_item current (k, v)) k) = false) as Hk.
    { unfold enrich_item. simpl. rewrite Hv. simpl.
      destruct (unfilled (dict_get current k)) eqn:Hcur; [|done].
      simpl. rewrite dict_get_insert. by rewrite decide_True. }
    unfold dict_get in *. by rewrite foldl_enrich_keeps.
Qed.

Lemma foldl_enrich_noop (new : list (string * pyval)) (current : gmap string pyval) :
  (forall k v, (k, v) ∈ new -> unfilled v = false ->
               unfilled (dict_get current k) = false) ->
  foldl enrich_item current new = current.
Proof.
  induction new as [|[k v] new IH]; intros H; [done|].
  simpl. assert (enrich_item current (k, v) = current) as ->.
  { unfold enrich_item. simpl. destruct (unfilled v) eqn:Hv.
    - by rewrite andb_false_r.
    - rewrite (H k v); [done| by left |done]. }
  apply IH. intros k' v' Hin. apply H. by right.
Qed.

(** C9.  Merging the same partial record twice gives the record that
    merging it once gives. *)
Theorem enrich_idempotent (m : gmap string pyval) (p : list (string * pyval)) :
  enrich (enrich m p) p = enrich m p.
Proof.
  rewrite !enrich_foldl. apply foldl_enrich_noop.
  intros k v. apply foldl_enrich_fills.
Qed.

(** ** The year check *)









(** ** De-duplication and append *)







Lemma same_value_text (v : pyval) (s : string) : same_value v (PStr s) -> v = PStr s.
Proof. by intros [->|[(z & [=] & _)|[[=] _]]]. Qed.








Lemma pd_eq_str (c : pyval) (x : string) : pd_eq c (PStr x) = true <-> c = PStr x.
Proof.
  destruct c; simpl; try (split; [discriminate|discriminate]).
  rewrite String.eqb_eq. split; congruence.
Qed.

(** Where the three key cells of the row are present texts, the check
    finds the row exactly when some master row has the same triple. *)
Lemma check_duplicate_present (row : gmap string pyval) (master_df : DataFrame)
    (a b d : string) (found : bool) :
  row_key row = (PStr a, PStr b, PStr d) ->
  df_empty master_df = false ->
  check_duplicate row master_df = Some found ->
  (found = true <-> exists r, r ∈ rows master_df /\ triple r = row_key row).
Proof.
  intros Hkey Hne. unfold check_duplicate. rewrite Hne.
  destruct (_ && _); [|discriminate]. intros [= <-].
  rewrite Hkey. injection Hkey as -> -> ->.
  rewrite Nat.ltb_lt. unfold triple. split.
  - intros Hlen.
    destruct (filter _ (rows master_df)) as [|r l] eqn:Hf; [simpl in Hlen; lia|].
    assert (r ∈ filter (fun r =>
              pd_eq (cell r "original_url") (PStr a)
              && pd_eq (cell r "replication_url") (PStr b)
              && pd_eq (cell r "description") (PStr d) = true) (rows master_df))
      as Hin by (rewrite Hf; by left).
    apply list_elem_of_filter in Hin as [Hm Hin].
    apply andb_true_iff in Hm as [[H1 H2]%andb_true_iff H3].
    apply pd_eq_str in H1, H2, H3. exists r. split; [done|]. congruence.
  - intros (r & Hin & Hr). injection Hr as H1 H2 H3.
    assert (r ∈ filter (fun r =>
              pd_eq (cell r "original_url") (PStr a)
              && pd_eq (cell r "replication_url") (PStr b)
              && pd_eq (cell r "description") (PStr d) = true) (rows master_df))
      as Hf.
    { apply list_elem_of_filter. split; [|done].
      rewrite H1, H2, H3. simpl. by rewrite !String.eqb_refl. }
    destruct (filter _ (rows master_df)); [by apply elem_of_nil in Hf|simpl; lia].
Qed.

(** C2 at the failing input.  The master holds one row whose original URL
    is missing; the processed row is that very row.  The two agree on the
    triple, yet [check_duplicate] answers [False] and the row is appended:
    the master grows from one row to two equal ones and no duplicate is
    counted. *)
Theorem check_duplicate_misses_missing_cell :
  let r : gmap string pyval :=
    {[ "original_url" := PNaN;
       "replication_url" := PStr "http://doi.org/10.1/r";
       "description" := PStr "effect of x on y" ]} in
  let cols := ["original_url"; "replication_url"; "description"] in
  let master_df := {| columns := cols; rows := [r] |} in
  let processed_df := {| columns := cols; rows := [r] |} in
  iterrows processed_df = [r]
  /\ row_key r = triple r
  /\ check_duplicate r master_df = Some false
  /\ ingest_data_append processed_df master_df =
       Some ({| columns := cols; rows := [r; r] |}, 0).
Proof.
  intros r cols master_df processed_df.
  split; [vm_compute; reflexivity|]. split; [reflexivity|].
  split; [vm_compute; reflexivity|]. vm_compute. reflexivity.
Qed.


Lemma lookup_columns_map (g : string -> pyval) (l : list string) (k : string) :
  (list_to_map ((fun c => (c, g c)) <$> l) : gmap string pyval) !! k
  = if decide (k ∈ l) then Some (g k) else None.
Proof.
  induction l as [|c l IH]; [done|].
  rewrite fmap_cons, list_to_map_cons. destruct (decide (c = k)) as [->|Hne].
  - rewrite lookup_insert_eq. rewrite decide_True; [done|by left].
  - rewrite lookup_insert_ne by done. rewrite IH.
    destruct (decide (k ∈ l)) as [Hin|Hnin].
    + rewrite decide_True; [done|by right].
    + rewrite decide_False; [done|].
      intros [?|?]%elem_of_cons; [congruence|done].
Qed.





(** ** The engines *)

Ltac run_block :=
  cbv [openalex_by_doi datacite_by_doi crossref_by_doi unpaywall_by_doi
       europepmc_by_doi semanticscholar_by_doi
       openalex_by_title crossref_by_title europepmc_by_title
       datacite_by_title semanticscholar_by_title
       doi_fallback title_fallback
       try_except bind when http_get the_work hits read merge
       return_if_complete doi_from_meta lower_of
       get_meta set_meta get_doi set_doi sleep ret raise return_
       st_meta st_doi st_log fst snd];
  repeat (case_match; simplify_eq).

Ltac block_checked :=
  intros [m d l] Hs; unfold incomplete in *; run_block; done.

(** Sequencing. *)
Lemma seq_app (l1 l2 : list (M unit)) (s : state) :
  seq (l1 ++ l2) s =
    match seq l1 s with
    | (Normal _, s') => seq l2 s'
    | (Return v, s') => (Return v, s')
    | (Raise, s') => (Raise, s')
    end.
Proof.
  revert s. induction l1 as [|b l1 IH]; intros s; [done|].
  simpl. unfold bind. destruct (b s) as [[[]|v|] s']; [apply IH|done|done].
Qed.

Lemma seq_checked (l : list (M unit)) : Forall checked l -> checked (seq l).
Proof.
  induction 1 as [|b l Hb Hl IH]; intros s Hs; [done|].
  simpl. unfold bind. specialize (Hb s Hs).
  destruct (b s) as [[[]|v|] s']; [by apply IH|done|done].
Qed.

Lemma none_dict_lookup (keys : list string) (k : string) :
  k ∈ keys -> none_dict keys !! k = Some PNone.
Proof.
  unfold none_dict. induction keys as [|k' keys IH]; intros Hk.
  - by apply elem_of_nil in Hk.
  - simpl. destruct (decide (k' = k)) as [->|Hne]; [apply lookup_insert_eq|].
    rewrite lookup_insert_ne by done. apply IH.
    by apply elem_of_cons in Hk as [->|Hk].
Qed.

Lemma incomplete_none_dict (keys : list string) (k : string) :
  k ∈ keys -> is_complete (none_dict keys) = false.
Proof.
  intros Hk. unfold is_complete. apply bool_decide_eq_false_2.
  intros Hall. specialize (Hall k PNone (none_dict_lookup keys k Hk)).
  simpl in Hall. unfold dict_get in Hall.
  by rewrite (none_dict_lookup keys k Hk) in Hall.
Qed.

Section EngineFacts.

Variable world : string -> reply.

Lemma checked_sleep : checked sleep.
Proof. block_checked. Qed.

Lemma checked_doi_from_meta : checked doi_from_meta.
Proof. block_checked. Qed.

Lemma checked_openalex_by_doi (doi : string) : checked (openalex_by_doi world doi).
Proof. block_checked. Qed.

Lemma checked_datacite_by_doi (doi : string) : checked (datacite_by_doi world doi).
Proof. block_checked. Qed.

Lemma checked_crossref_by_doi (doi : string) : checked (crossref_by_doi world doi).
Proof. block_checked. Qed.

Lemma checked_unpaywall_by_doi (doi email : string) :
  checked (unpaywall_by_doi world doi email).
Proof. block_checked. Qed.

Lemma checked_europepmc_by_doi (doi : string) : checked (europepmc_by_doi world doi).
Proof. block_checked. Qed.

Lemma checked_semanticscholar_by_doi (doi : string) :
  checked (semanticscholar_by_doi world doi).
Proof. block_checked. Qed.

Lemma checked_openalex_by_title (title : string) :
  checked (openalex_by_title world title).
Proof. block_checked. Qed.

Lemma checked_crossref_by_title (title : string) :
  checked (crossref_by_title world title).
Proof. block_checked. Qed.

Lemma checked_europepmc_by_title (title : string) :
  checked (europepmc_by_title world title).
Proof. block_checked. Qed.

Lemma checked_datacite_by_title : checked (datacite_by_title world).
Proof. block_checked. Qed.

Lemma plain_semanticscholar_by_title (title : string) :
  plain (semanticscholar_by_title world title).
Proof. intros [m d l]. run_block; eauto. Qed.

Lemma checked_doi_chain (doi email : string) :
  Forall checked (doi_chain world doi email).
Proof.
  unfold doi_chain.
  repeat apply Forall_cons_2; try apply Forall_nil_2;
    auto using checked_sleep, checked_openalex_by_doi, checked_datacite_by_doi,
      checked_crossref_by_doi, checked_unpaywall_by_doi,
      checked_europepmc_by_doi, checked_semanticscholar_by_doi.
Qed.

End EngineFacts.

Ltac block_sends :=
  intros [m d l]; run_block; simpl; by rewrite ?app_nil_r.

Section EarlyExit.

Variable world : string -> reply.

Lemma sends_openalex_by_doi (doi : string) :
  sends [(OpenAlex, "https://api.openalex.org/works/https://doi.org/" +:+ doi)]
    (openalex_by_doi world doi).
Proof. block_sends. Qed.

Lemma sends_openalex_by_title (title : string) :
  sends [(OpenAlex, "https://api.openalex.org/works?filter=title.search:"
                    +:+ quote title)]
    (openalex_by_title world title).
Proof. block_sends. Qed.

Lemma checked_title_chain_front (title : string) :
  Forall checked
    [ openalex_by_title world title; sleep; doi_from_meta;
      crossref_by_title world title; europepmc_by_title world title;
      datacite_by_title world ].
Proof.
  repeat apply Forall_cons_2; try apply Forall_nil_2;
    auto using checked_sleep, checked_doi_from_meta, checked_openalex_by_title,
      checked_crossref_by_title, checked_europepmc_by_title,
      checked_datacite_by_title.
Qed.

(** A checked block that leaves a complete record behind has returned
    it. *)
Lemma checked_complete_returns (b : M unit) (s s' : state) (o : outcome unit) :
  checked b -> incomplete s -> b s = (o, s') ->
  is_complete (st_meta s') = true -> o = Return (st_meta s').
Proof.
  intros Hb Hs Hrun Hc. specialize (Hb s Hs). rewrite Hrun in Hb.
  destruct o as [[]|v|]; [|by destruct Hb as [-> _]|done].
  unfold incomplete in Hb. congruence.
Qed.

Lemma checked_prefix_incomplete (pre : list (M unit)) (s0 s : state) :
  Forall checked pre -> incomplete s0 -> seq pre s0 = (Normal tt, s) ->
  incomplete s.
Proof.
  intros Hpre Hs0 Hrun. pose proof (seq_checked pre Hpre s0 Hs0) as H.
  by rewrite Hrun in H.
Qed.

Lemma title_fallback_returns (s : state) :
  exists m, title_fallback s = (Return m, {| st_meta := m; st_doi := st_doi s;
                                              st_log := st_log s |})
            /\ (truthy (dict_get (st_meta s) "url") = true -> m = st_meta s).
Proof.
  destruct s as [m d l].
  cbv [title_fallback bind when get_meta set_meta return_ ret st_meta st_doi st_log].
  destruct (truthy (dict_get m "doi") && negb (truthy (dict_get m "url"))) eqn:Hc.
  - eexists. split; [done|]. intros Hu.
    rewrite Hu, andb_false_r in Hc. discriminate.
  - eexists. by split.
Qed.

(** C3.  In both engines: when the running record is complete after an
    adapter has run, the adapters before it having gone by without a
    return, the function returns there, and the requests it has sent are
    those sent up to that adapter: none of the later adapters is invoked.
    In identifier mode and for every adapter of title mode but the last,
    the record returned is the record as it stands after that adapter.
    In particular, when the first provider alone completes the record, its
    request is the only one sent. *)
Theorem early_exit_when_complete :
  (forall d email pre b post s o s',
      strip d <> "" ->
      doi_chain world (strip d) email = pre ++ b :: post ->
      seq pre (doi_start (strip d)) = (Normal tt, s) ->
      b s = (o, s') ->
      is_complete (st_meta s') = true ->
      fetch_metadata_from_doi world (PStr d) email =
        (Returned (Some (st_meta s')), st_log s'))
  /\ (forall t pre b post s o s',
      strip t <> "" ->
      title_chain world (clean_title t) = pre ++ b :: post ->
      seq pre title_start = (Normal tt, s) ->
      b s = (o, s') ->
      is_complete (st_meta s') = true ->
      exists m,
        fetch_metadata_from_title world (PStr t) = (Returned (Some m), st_log s')
        /\ (post <> [] -> m = st_meta s'))
  /\ (forall d email o s',
      strip d <> "" ->
      openalex_by_doi world (strip d) (doi_start (strip d)) = (o, s') ->
      is_complete (st_meta s') = true ->
      fetch_metadata_from_doi world (PStr d) email =
        (Returned (Some (st_meta s')),
         [(OpenAlex, "https://api.openalex.org/works/https://doi.org/" +:+ strip d)]))
  /\ (forall t o s',
      strip t <> "" ->
      openalex_by_title world (clean_title t) title_start = (o, s') ->
      is_complete (st_meta s') = true ->
      fetch_metadata_from_title world (PStr t) =
        (Returned (Some (st_meta s')),
         [(OpenAlex, "https://api.openalex.org/works?filter=title.search:"
                     +:+ quote (clean_title t))])).
Proof.
  assert (forall d email pre b post s o s',
      strip d <> "" ->
      doi_chain world (strip d) email = pre ++ b :: post ->
      seq pre (doi_start (strip d)) = (Normal tt, s) ->
      b s = (o, s') ->
      is_complete (st_meta s') = true ->
      fetch_metadata_from_doi world (PStr d) email =
        (Returned (Some (st_meta s')), st_log s')) as Hdoi.
  { intros d email pre b post s o s' Hd Hchain Hpre Hb Hc.
    pose proof (checked_doi_chain world (strip d) email) as Hall.
    rewrite Hchain in Hall. apply Forall_app in Hall as [Hcpre Hall].
    apply Forall_cons in Hall as [Hcb _].
    assert (incomplete s) as Hs.
    { apply (checked_prefix_incomplete pre (doi_start (strip d))); [done| |done].
      apply (incomplete_none_dict doi_fields "url"). unfold doi_fields. set_solver. }
    pose proof (checked_complete_returns b s s' o Hcb Hs Hb Hc) as ->.
    unfold fetch_metadata_from_doi.
    apply truthy_str in Hd. rewrite Hd. simpl negb. cbv iota.
    unfold call, bind. rewrite Hchain, seq_app, Hpre. simpl. unfold bind.
    by rewrite Hb. }
  assert (forall t pre b post s o s',
      strip t <> "" ->
      title_chain world (clean_title t) = pre ++ b :: post ->
      seq pre title_start = (Normal tt, s) ->
      b s = (o, s') ->
      is_complete (st_meta s') = true ->
      exists m,
        fetch_metadata_from_title world (PStr t) = (Returned (Some m), st_log s')
        /\ (post <> [] -> m = st_meta s')) as Htitle.
  { intros t pre b post s o s' Ht Hchain Hpre Hb Hc.
    unfold fetch_metadata_from_title.
    apply truthy_str in Ht. rewrite Ht. simpl negb. cbv iota.
    unfold call, bind. rewrite Hchain, seq_app, Hpre. simpl. unfold bind.
    rewrite Hb.
    pose proof (checked_title_chain_front (clean_title t)) as Hall.
    destruct post as [|x post _] using rev_ind.
    - change (title_chain world (clean_title t)) with
        ([ openalex_by_title world (clean_title t); sleep; doi_from_meta;
           crossref_by_title world (clean_title t);
           europepmc_by_title world (clean_title t);
           datacite_by_title world ]
         ++ [semanticscholar_by_title world (clean_title t)]) in Hchain.
      apply app_inj_tail in Hchain as [_ <-].
      destruct (plain_semanticscholar_by_title world (clean_title t) s) as [s2 Hs2].
      rewrite Hb in Hs2. injection Hs2 as -> ->. simpl.
      destruct (title_fallback_returns s2) as (m & -> & _).
      exists m. by split.
    - change (title_chain world (clean_title t)) with
        ([ openalex_by_title world (clean_title t); sleep; doi_from_meta;
           crossref_by_title world (clean_title t);
           europepmc_by_title world (clean_title t);
           datacite_by_title world ]
         ++ [semanticscholar_by_title world (clean_title t)]) in Hchain.
      rewrite app_comm_cons, app_assoc in Hchain.
      apply app_inj_tail in Hchain as [Hfront _].
      rewrite Hfront in Hall. apply Forall_app in Hall as [Hcpre Hall].
      apply Forall_cons in Hall as [Hcb _].
      assert (incomplete s) as Hs.
      { apply (checked_prefix_incomplete pre title_start); [done| |done].
        apply (incomplete_none_dict title_fields "url").
        unfold title_fields. set_solver. }
      pose proof (checked_complete_returns b s s' o Hcb Hs Hb Hc) as ->.
      exists (st_meta s'). by split. }
  split; [exact Hdoi|]. split; [exact Htitle|]. split.
  - intros d email o s' Hd Hb Hc.
    rewrite (Hdoi d email [] _ _ (doi_start (strip d)) o s' Hd eq_refl eq_refl Hb Hc).
    pose proof (sends_openalex_by_doi (strip d) (doi_start (strip d))) as Hlog.
    rewrite Hb in Hlog. simpl in Hlog. by rewrite Hlog.
  - intros t o s' Ht Hb Hc.
    destruct (Htitle t [] _ _ title_start o s' Ht eq_refl eq_refl Hb Hc)
      as (m & -> & Hm).
    rewrite Hm by done.
    pose proof (sends_openalex_by_title (clean_title t) title_start) as Hlog.
    rewrite Hb in Hlog. simpl in Hlog. by rewrite Hlog.
Qed.

End EarlyExit.

Lemma early_exit_when_complete_witness :
  (fetch_metadata_from_doi world_openalex (PStr " 10.1/abc ") "a@b.org").2 =
    [(OpenAlex, "https://api.openalex.org/works/https://doi.org/10.1/abc")]
  /\ (fetch_metadata_from_title world_openalex (PStr "Some Effect (2019)")).2 =
    [(OpenAlex, "https://api.openalex.org/works?filter=title.search:Some%20Effect")].
Proof.
  destruct (early_exit_when_complete world_openalex) as (_ & _ & Hdoi & Htitle).
  split.
  - erewrite (Hdoi " 10.1/abc " "a@b.org").
    + reflexivity.
    + intros H. vm_compute in H. discriminate H.
    + apply surjective_pairing.
    + vm_compute. reflexivity.
  - erewrite (Htitle "Some Effect (2019)").
    + reflexivity.
    + intros H. vm_compute in H. discriminate H.
    + apply surjective_pairing.
    + vm_compute. reflexivity.
Defined.

(** ** The order of the requests *)

Lemma enrich_item_is_Some (m : gmap string pyval) (kv : string * pyval) (k : string) :
  is_Some (m !! k) -> is_Some (enrich_item m kv !! k).
Proof.
  intros Hk. unfold enrich_item. case_match; [|done].
  rewrite lookup_insert. by case_decide.
Qed.

Lemma enrich_is_Some (m : gmap string pyval) (new : list (string * pyval)) (k : string) :
  is_Some (m !! k) -> is_Some (enrich m new !! k).
Proof.
  rewrite enrich_foldl. revert m.
  induction new as [|kv new IH]; intros m Hk; [done|].
  simpl. apply IH. by apply enrich_item_is_Some.
Qed.



Section DoiOrder.

Variable world : string -> reply.















Lemma doi_start_incomplete (doi : string) : incomplete (doi_start doi).
Proof.
  apply (incomplete_none_dict doi_fields "url"). unfold doi_fields. set_solver.
Qed.

Lemma doi_start_has_url (doi : string) : has_url (doi_start doi).
Proof.
  unfold has_url. cbn [st_meta doi_start].
  rewrite (none_dict_lookup doi_fields "url"); [done|].
  unfold doi_fields. set_solver.
Qed.



End DoiOrder.

(** *** Title mode *)




Section TitleOrder.

Variable world : string -> reply.



















End TitleOrder.

Section TitleRequests.

Variable world : string -> reply.

















End TitleRequests.




(** In title mode a discovered identifier opens the way to DataCite. *)
Lemma title_mode_reaches_datacite :
  fst <$> (fetch_metadata_from_title world_crossref_hit (PStr "Some Effect")).2
    = [OpenAlex; Crossref; DataCite; SemanticScholar]
  /\ fst <$> (fetch_metadata_from_title world_down (PStr "Some Effect")).2
    = [OpenAlex; Crossref; EuropePMC; SemanticScholar].
Proof. split; by vm_compute. Qed.

(** C8 at the failing input.  Two worlds that differ in one answer only:
    to the title search Crossref gives a hit whose identifier reads while
    the rest of it does not, or no connection at all.  Were the unreadable
    answer no data, the two lookups would agree.  They do not: after the
    unreadable answer the identifier it carried steers the rest of the
    chain (Europe PMC is skipped, DataCite is asked) and ends up in the
    record returned. *)
Theorem crossref_broken_answer_is_used :
  let broken := fetch_metadata_from_title world_crossref_broken (PStr "Some Effect") in
  let failed := fetch_metadata_from_title world_crossref_failed (PStr "Some Effect") in
  (forall u, u <> crossref_some_effect ->
             world_crossref_broken u = world_crossref_failed u)
  /\ world_crossref_broken crossref_some_effect
     = Response 200 (Works [BrokenItem (PStr "10.1/abc")])
  /\ world_crossref_failed crossref_some_effect = NetworkError
  /\ fst <$> failed.2 = [OpenAlex; Crossref; EuropePMC; SemanticScholar]
  /\ fst <$> broken.2 = [OpenAlex; Crossref; DataCite; SemanticScholar]
  /\ (exists m, failed.1 = Returned (Some m)
                /\ dict_get m "doi" = PNone /\ dict_get m "url" = PNone)
  /\ (exists m, broken.1 = Returned (Some m)
                /\ dict_get m "doi" = PStr "10.1/abc"
                /\ dict_get m "url" = PStr "https://doi.org/10.1/abc").
Proof.
  intros broken failed.
  split.
  { intros u Hu. unfold world_crossref_broken, world_crossref_failed.
    apply String.eqb_neq in Hu. by rewrite Hu. }
  split; [reflexivity|]. split; [reflexivity|].
  split; [by vm_compute|]. split; [by vm_compute|].
  split.
  - eexists. split; [by vm_compute|]. split; by vm_compute.
  - eexists. split; [by vm_compute|]. split; by vm_compute.
Qed.

(** * Further properties of the code *)

(** ** Rows: empty cells and the fill from metadata *)

Lemma is_empty_str (s : string) :
  is_empty (PStr s) = true <-> blank s = true \/ s = "NaN".
Proof.
  unfold is_empty. simpl.
  rewrite !orb_true_iff, negb_true_iff, negb_false_iff, !String.eqb_eq,
    strip_empty_iff.
  split.
  - intros [[->| ->]|H]; [by left|by right|by left].
  - intros [H| ->]; [by right|left; by right].
Qed.

(** X1.  [is_empty] is true of None, of the missing value NaN, and of a text
    that is blank (the empty text included) or is ["NaN"]; it is false of
    every number, zero included. *)
Theorem is_empty_iff (v : pyval) :
  is_empty v = true <->
    v = PNone \/ v = PNaN
    \/ exists s, v = PStr s /\ (blank s = true \/ s = "NaN").
Proof.
  destruct v as [| |z|z|s].
  - split; [by left|done].
  - split; [by right; left|done].
  - split; [done|]. by intros [|[|(s & ? & _)]].
  - split; [done|]. by intros [|[|(s & ? & _)]].
  - rewrite is_empty_str. split.
    + intros H. right. right. by exists s.
    + by intros [|[|(s' & [= <-] & H)]].
Qed.

Lemma fill_column_dom (m row : gmap string pyval) (mc : string * string) (c : string) :
  is_Some (fill_column m row mc !! c) <-> is_Some (row !! c).
Proof.
  destruct mc as [key col]. unfold fill_column. simpl.
  destruct (row !! col) as [cur|] eqn:Hcur; [|done].
  destruct (_ && _); [|done].
  rewrite lookup_insert. case_decide; [|done]. subst. rewrite Hcur.
  split; eauto.
Qed.

Lemma fill_column_keeps (m row : gmap string pyval) (mc : string * string)
    (c : string) (v : pyval) :
  row !! c = Some v -> is_empty v = false -> fill_column m row mc !! c = Some v.
Proof.
  intros Hc Hv. destruct mc as [key col]. unfold fill_column. simpl.
  destruct (row !! col) as [cur|] eqn:Hcur; [|done].
  destruct (is_empty cur) eqn:He; simpl; [|done].
  destruct (truthy _); [|done].
  rewrite lookup_insert_ne; [done|]. intros ->. congruence.
Qed.

Lemma fill_column_other (m row : gmap string pyval) (mc : string * string) (c : string) :
  c <> mc.2 -> fill_column m row mc !! c = row !! c.
Proof.
  destruct mc as [key col]. simpl.
  intros Hc. unfold fill_column. simpl. destruct (row !! col); [|done].
  destruct (_ && _); [|done]. by rewrite lookup_insert_ne.
Qed.

Lemma fill_column_changes (m row : gmap string pyval) (mc : string * string) (c : string) :
  fill_column m row mc !! c <> row !! c ->
  c = mc.2 /\ truthy (dict_get m mc.1) = true
  /\ fill_column m row mc !! c = Some (dict_get m mc.1).
Proof.
  destruct mc as [key col]. unfold fill_column. simpl.
  destruct (row !! col) as [cur|] eqn:Hcur; [|done].
  destruct (is_empty cur); simpl; [|done].
  destruct (truthy (dict_get m key)) eqn:Ht; [|done].
  destruct (decide (col = c)) as [<-|Hne].
  - by rewrite lookup_insert_eq.
  - by rewrite lookup_insert_ne.
Qed.

Lemma foldl_fill_column (m : gmap string pyval) (mapping : list (string * string))
    (row : gmap string pyval) (c : string) :
  let out := foldl (fill_column m) row mapping in
  (is_Some (out !! c) <-> is_Some (row !! c))
  /\ (forall v, row !! c = Some v -> is_empty v = false -> out !! c = Some v)
  /\ (c ∉ mapping.*2 -> out !! c = row !! c)
  /\ (out !! c <> row !! c ->
        exists key, (key, c) ∈ mapping /\ truthy (dict_get m key) = true
                    /\ out !! c = Some (dict_get m key)).
Proof.
  revert row. induction mapping as [|mc mapping IH]; intros row; simpl.
  - by repeat split.
  - destruct (IH (fill_column m row mc)) as (Hdom & Hkeep & Hother & Hchg).
    split; [|split; [|split]].
    + by rewrite Hdom, fill_column_dom.
    + intros v Hv He. apply Hkeep; [|done]. by apply fill_column_keeps.
    + intros Hnot. apply not_elem_of_cons in Hnot as [Hne Hnot].
      rewrite Hother by done. by apply fill_column_other.
    + intros Hdiff.
      destruct (decide (foldl (fill_column m) (fill_column m row mc) mapping !! c
                        = fill_column m row mc !! c)) as [Heq|Hne].
      * rewrite Heq in Hdiff. apply fill_column_changes in Hdiff as (-> & Ht & Hres).
        exists mc.1. split; [destruct mc; by left|]. split; [done|].
        by rewrite Heq.
      * destruct (Hchg Hne) as (key & Hin & Ht & Hres).
        exists key. split; [by right|done].
Qed.

Lemma enrich_from_metadata_keeps
    (row : gmap string pyval) (prefix : string)
    (metadata : option (gmap string pyval)) (c : string) :
  let out := enrich_from_metadata row prefix metadata in
  (forall v, row !! c = Some v -> is_empty v = false -> out !! c = Some v)
  /\ (c ∉ (field_mapping prefix).*2 -> out !! c = row !! c).
Proof.
  unfold enrich_from_metadata. destruct metadata as [m|]; [|by split].
  destruct (dict_truthy (Some m)); [|by split].
  destruct (foldl_fill_column m (field_mapping prefix) row c)
    as (_ & Hkeep & Hother & _).
  by split.
Qed.

(** X2.  The row-level fill: no column is added or dropped; a cell that is not
    empty keeps its value; so does every column that is not one of the
    seven of the entity; and a cell that changes now holds a truthy value
    of the metadata. *)
Theorem enrich_from_metadata_fill_only_if_empty
    (row : gmap string pyval) (prefix : string)
    (metadata : option (gmap string pyval)) (c : string) :
  let out := enrich_from_metadata row prefix metadata in
  (is_Some (out !! c) <-> is_Some (row !! c))
  /\ (forall v, row !! c = Some v -> is_empty v = false -> out !! c = Some v)
  /\ (c ∉ (field_mapping prefix).*2 -> out !! c = row !! c)
  /\ (out !! c <> row !! c ->
        exists m key, metadata = Some m /\ (key, c) ∈ field_mapping prefix
                      /\ truthy (dict_get m key) = true
                      /\ out !! c = Some (dict_get m key)).
Proof.
  unfold enrich_from_metadata. destruct metadata as [m|]; [|by repeat split].
  destruct (dict_truthy (Some m)); [|by repeat split].
  destruct (foldl_fill_column m (field_mapping prefix) row c)
    as (Hdom & Hkeep & Hother & Hchg).
  repeat split; try done; try apply Hdom.
  intros Hdiff. destruct (Hchg Hdiff) as (key & ? & ? & ?). by exists m, key.
Qed.

Lemma enrich_from_metadata_fill_only_if_empty_witness :
  let row : gmap string pyval :=
    {["original_title" := PStr "Some Effect"; "original_year" := PNaN;
      "description" := PStr "d"]} in
  let metadata : gmap string pyval :=
    {["title" := PStr "Another title"; "year" := PInt 2019]} in
  enrich_from_metadata row "original" (Some metadata) !! "original_title"
    = Some (PStr "Some Effect")
  /\ enrich_from_metadata row "original" (Some metadata) !! "original_year"
    = Some (PInt 2019).
Proof.
  intros row metadata. split; [|reflexivity].
  destruct (enrich_from_metadata_fill_only_if_empty row "original"
              (Some metadata) "original_title") as (_ & Hkeep & _).
  apply Hkeep; reflexivity.
Defined.

(** ** Identifiers out of links *)

Lemma extract_doi_from_url_empty (v : pyval) :
  is_empty v = true -> extract_doi_from_url v = PNone.
Proof.
  destruct v as [| | | |s]; try done.
  intros [H| ->]%is_empty_str; [|done].
  simpl. by rewrite (strip_blank s H).
Qed.

(** X3.  Where [extract_doi_from_url] finds an identifier, [normalize_doi]
    finds the same one; it finds none in a link of the [dx.doi.org]
    resolver, which [normalize_doi] does strip. *)
Theorem extract_doi_from_url_and_normalize_doi :
  (forall url d, extract_doi_from_url url = PStr d -> d <> "" ->
                 normalize_doi url = PStr d)
  /\ (forall s p rest,
        p = "http://dx.doi.org/" \/ p = "https://dx.doi.org/" ->
        strip s = p +:+ rest -> replace_empty rest p = rest -> rest <> "" ->
        extract_doi_from_url (PStr s) = PNone /\ normalize_doi (PStr s) = PStr rest).
Proof.
  split.
  - intros [| | | |s] d H Hd; try done. revert H.
    unfold extract_doi_from_url, normalize_doi.
    destruct (negb (truthy (PStr (strip s)))); [done|].
    apply truthy_str in Hd.
    destruct (startswith (strip s) "http://doi.org/").
    { intros H.
      assert (replace_empty (strip s) "http://doi.org/" = d) as -> by congruence.
      by rewrite Hd. }
    destruct (startswith (strip s) "https://doi.org/"); [|done].
    intros H.
    assert (replace_empty (strip s) "https://doi.org/" = d) as -> by congruence.
    by rewrite Hd.
  - intros s p rest Hp Hs Hclean Hrest. split.
    + unfold extract_doi_from_url, startswith. rewrite Hs.
      destruct Hp as [-> | ->];
        match goal with
        | |- context [truthy (PStr (?q +:+ rest))] =>
            change (truthy (PStr (q +:+ rest))) with true
        end; cbn [negb];
        repeat match goal with
          | |- context [String.prefix ?q (?q' +:+ rest)] =>
              let b := eval vm_compute in (String.prefix q (q' +:+ rest)) in
              change (String.prefix q (q' +:+ rest)) with b
          end; done.
    + apply (normalize_doi_prefixed_clean s p rest); try done.
      unfold known_prefixes. destruct Hp as [-> | ->]; set_solver.
Qed.

Lemma extract_doi_from_url_and_normalize_doi_witness :
  extract_doi_from_url (PStr " https://doi.org/10.1/x ") = PStr "10.1/x"
  /\ normalize_doi (PStr " https://doi.org/10.1/x ") = PStr "10.1/x"
  /\ extract_doi_from_url (PStr "http://dx.doi.org/10.1/x") = PNone
  /\ normalize_doi (PStr "http://dx.doi.org/10.1/x") = PStr "10.1/x".
Proof.
  destruct extract_doi_from_url_and_normalize_doi as [Hagree Hdx].
  split; [reflexivity|]. split.
  - apply Hagree; [reflexivity|discriminate].
  - apply (Hdx "http://dx.doi.org/10.1/x" "http://dx.doi.org/" "10.1/x");
      [by left|reflexivity|reflexivity|discriminate].
Defined.

(** ** One row through the pipeline *)

Lemma append_inj_l (p a b : string) : p +:+ a = p +:+ b -> a = b.
Proof.
  induction p as [|c p IH]; [done|].
  rewrite !append_cons. intros [= H]. by apply IH.
Qed.

Lemma url_not_mapped (prefix : string) :
  prefix +:+ "_url" ∉ (field_mapping prefix).*2.
Proof.
  unfold field_mapping. cbn [fmap list_fmap snd].
  intros H.
  repeat (apply elem_of_cons in H as [H|H]; [by apply append_inj_l in H|]).
  by apply elem_of_nil in H.
Qed.

Lemma fetch_metadata_from_title_not_str (world : string -> reply) (title : pyval) :
  is_str title = false -> fetch_metadata_from_title world title = (Returned None, []).
Proof. by destruct title. Qed.

Lemma process_entity_cells (world : string -> reply) (prefix : string)
    (sliced : bool) (row out : gmap string pyval)
    (log : list (provider * string)) (c : string) :
  process_entity world prefix sliced row = (RowOut out, log) ->
  (forall v, row !! c = Some v -> is_empty v = false -> out !! c = Some v)
  /\ (c ∉ entity_columns prefix -> out !! c = row !! c).
Proof.
  unfold process_entity.
  destruct (truthy (extract_doi_from_url _) && needs_enrichment row prefix).
  { destruct (fetch_metadata_from_doi _ _ _) as [[metadata|] log'];
      simpl; intros [= <- <-].
    destruct (enrich_from_metadata_keeps row prefix metadata c)
      as (Hkeep & Hother).
    split; [exact Hkeep|]. intros Hc. apply Hother.
    unfold entity_columns in Hc. by apply not_elem_of_cons in Hc as [_ Hc]. }
  destruct (is_empty (dict_get row (prefix +:+ "_url"))) eqn:Hurl; simpl;
    [|by intros [= <- <-]].
  destruct (negb (is_empty _)); [|by intros [= <- <-]].
  destruct (sliced && _); [done|].
  destruct (fetch_metadata_from_title _ _) as [[metadata|] log']; simpl; [|done].
  destruct (dict_truthy metadata && _); [|by intros [= <- <-]].
  destruct (sanity_check_metadata row prefix metadata); [|by intros [= <- <-]].
  destruct (truthy (normalize_doi _)); [|by intros [= <- <-]].
  intros [= <- <-].
  match goal with
  | |- context [enrich_from_metadata ?r _ _] =>
      destruct (enrich_from_metadata_keeps r prefix metadata c)
        as (Hkeep & Hother)
  end.
  split.
  - intros v Hv He. apply Hkeep; [|done].
    rewrite lookup_insert_ne; [done|]. intros <-.
    unfold dict_get in Hurl. rewrite Hv in Hurl. simpl in Hurl. congruence.
  - intros Hc. unfold entity_columns in Hc.
    apply not_elem_of_cons in Hc as [Hne Hc].
    rewrite Hother by done. by rewrite lookup_insert_ne.
Qed.

(** X5.  [process_row] changes no cell that holds a non-empty value, and no
    column outside the eight of each entity (the link and the seven
    bibliographic fields): the description and every other pass-through
    column come out as they went in. *)
Theorem process_row_keeps_cells (world : string -> reply)
    (row out : gmap string pyval) (log : list (provider * string)) (c : string) :
  process_row world row = (RowOut out, log) ->
  (forall v, row !! c = Some v -> is_empty v = false -> out !! c = Some v)
  /\ (c ∉ entity_columns "original" ++ entity_columns "replication" ->
      out !! c = row !! c).
Proof.
  unfold process_row.
  destruct (process_entity world "original" false row) as [[row1|] log1] eqn:H1;
    [|done].
  destruct (process_entity world "replication" true row1) as [[row2|] log2] eqn:H2;
    [|done].
  intros [= <- <-].
  destruct (process_entity_cells _ _ _ _ _ _ c H1) as [Hk1 Ho1].
  destruct (process_entity_cells _ _ _ _ _ _ c H2) as [Hk2 Ho2].
  split.
  - intros v Hv He. apply Hk2; [|done]. by apply Hk1.
  - intros Hc. apply not_elem_of_app in Hc as [Hc1 Hc2].
    by rewrite Ho2, Ho1.
Qed.

Lemma process_row_keeps_cells_witness :
  let row : gmap string pyval :=
    {["original_url" := PStr "http://doi.org/10.1/abc";
      "original_title" := PStr "My own title";
      "original_year" := PNaN;
      "replication_url" := PStr "https://example.org/r";
      "description" := PStr "effect of x on y"]} in
  exists out log,
    process_row world_openalex row = (RowOut out, log)
    /\ out !! "original_title" = Some (PStr "My own title")
    /\ out !! "description" = Some (PStr "effect of x on y")
    /\ out !! "original_year" = Some (PInt 2019).
Proof.
  intros row.
  destruct (process_row world_openalex row) as [[out|] log] eqn:Hrun;
    [|vm_compute in Hrun; discriminate Hrun].
  exists out, log. split; [reflexivity|].
  destruct (process_row_keeps_cells _ _ _ _ "original_title" Hrun) as [Hkeep _].
  destruct (process_row_keeps_cells _ _ _ _ "description" Hrun) as [_ Hother].
  split; [apply Hkeep; vm_compute; reflexivity|]. split.
  - rewrite Hother; [vm_compute; reflexivity|].
    apply (bool_decide_unpack _). vm_compute. exact I.
  - vm_compute in Hrun. injection Hrun as <- _. vm_compute. reflexivity.
Defined.

Lemma foreign_url_not_empty (u : string) : foreign_url u -> is_empty (PStr u) = false.
Proof.
  intros (Hs & Hn & _). apply not_true_is_false. intros H.
  apply is_empty_str in H as [H|H]; [|done].
  by apply strip_blank in H.
Qed.

Lemma foreign_url_no_doi (u : string) :
  foreign_url u -> extract_doi_from_url (PStr u) = PNone.
Proof.
  intros (Hs & _ & H1 & H2). unfold extract_doi_from_url.
  apply truthy_str in Hs. rewrite Hs, H1, H2. done.
Qed.

Lemma dict_get_Some (m : gmap string pyval) (k : string) (v : pyval) :
  m !! k = Some v -> dict_get m k = v.
Proof. intros H. unfold dict_get. by rewrite H. Qed.

Lemma process_entity_foreign_url (world : string -> reply) (prefix : string)
    (sliced : bool) (row : gmap string pyval) (u : string) :
  row !! (prefix +:+ "_url") = Some (PStr u) -> foreign_url u ->
  process_entity world prefix sliced row = (RowOut row, []).
Proof.
  intros Hrow Hu. unfold process_entity. cbv zeta.
  rewrite (dict_get_Some _ _ _ Hrow).
  by rewrite (foreign_url_no_doi u Hu), (foreign_url_not_empty u Hu).
Qed.

(** X6.  A row whose two links are there and are not [doi.org] links (another
    site, or the [dx.doi.org] resolver) goes through [process_row] as it
    is, and no provider is asked anything. *)
Theorem process_row_foreign_urls (world : string -> reply)
    (row : gmap string pyval) (u1 u2 : string) :
  row !! "original_url" = Some (PStr u1) ->
  row !! "replication_url" = Some (PStr u2) ->
  foreign_url u1 -> foreign_url u2 ->
  process_row world row = (RowOut row, []).
Proof.
  intros H1 H2 Hu1 Hu2. unfold process_row.
  rewrite (process_entity_foreign_url world "original" false row u1 H1 Hu1).
  by rewrite (process_entity_foreign_url world "replication" true row u2 H2 Hu2).
Qed.

Lemma process_row_foreign_urls_witness :
  let row : gmap string pyval :=
    {["original_url" := PStr "http://dx.doi.org/10.1/abc";
      "original_title" := PStr "Some Effect";
      "replication_url" := PStr "https://osf.io/xyz12"]} in
  process_row world_openalex row = (RowOut row, []).
Proof.
  intros row.
  apply (process_row_foreign_urls world_openalex row
           "http://dx.doi.org/10.1/abc" "https://osf.io/xyz12").
  - vm_compute. reflexivity.
  - vm_compute. reflexivity.
  - repeat split; try (vm_compute; reflexivity); intros H; vm_compute in H;
      discriminate H.
  - repeat split; try (vm_compute; reflexivity); intros H; vm_compute in H;
      discriminate H.
Defined.

Lemma normalize_doi_result (v : pyval) :
  normalize_doi v = PNone \/ exists n, normalize_doi v = PStr n /\ n <> "".
Proof.
  destruct v as [| | | |s]; try by left.
  unfold normalize_doi. destruct (negb _); [by left|].
  match goal with
  | |- context [if truthy (PStr ?d) then _ else _] =>
      destruct (truthy (PStr d)) eqn:Hd
  end; [right|by left].
  eexists. split; [done|]. by apply truthy_str.
Qed.

Lemma process_entity_title_form (world : string -> reply) (prefix : string)
    (sliced : bool) (row m : gmap string pyval) (log : list (provider * string))
    (title : string) :
  is_empty (dict_get row (prefix +:+ "_url")) = true ->
  dict_get row (prefix +:+ "_title") = PStr title ->
  is_empty (PStr title) = false ->
  fetch_metadata_from_title world (PStr title) = (Returned (Some m), log) ->
  process_entity world prefix sliced row =
    if dict_truthy (Some m) && truthy (dict_get m "doi") then
      if sanity_check_metadata row prefix (Some m) then
        if truthy (normalize_doi (dict_get m "doi")) then
          (RowOut (enrich_from_metadata
                     (<[prefix +:+ "_url" :=
                          PStr ("http://doi.org/" +:+
                                py_str (normalize_doi (dict_get m "doi")))]> row)
                     prefix (Some m)), log)
        else (RowOut row, log)
      else (RowOut row, log)
    else (RowOut row, log).
Proof.
  intros Hurl Htitle Hne Hrun. unfold process_entity. cbv zeta.
  rewrite (extract_doi_from_url_empty _ Hurl). cbn [truthy andb].
  rewrite Hurl, Htitle, Hne. cbn [negb andb is_str]. rewrite andb_false_r.
  rewrite Hrun. cbn [lookup_result].
  change (default ∅ (Some m)) with m. reflexivity.
Qed.

(** X7.  The search by title of one entity, for a row whose link is empty and
    whose title is a non-empty text, the lookup having returned the record
    [m].  If [m] holds no identifier or the sanity check rejects it, the
    row comes back unchanged.  If [m] holds an identifier that the sanity
    check accepts, the link of the entity becomes ["http://doi.org/"]
    followed by the normalised identifier. *)
Theorem process_entity_by_title (world : string -> reply) (prefix : string)
    (sliced : bool) (row m : gmap string pyval) (log : list (provider * string))
    (title : string) :
  is_empty (dict_get row (prefix +:+ "_url")) = true ->
  dict_get row (prefix +:+ "_title") = PStr title ->
  is_empty (PStr title) = false ->
  fetch_metadata_from_title world (PStr title) = (Returned (Some m), log) ->
  (truthy (dict_get m "doi") = false \/ sanity_check_metadata row prefix (Some m) = false ->
     process_entity world prefix sliced row = (RowOut row, log))
  /\ (forall n,
        truthy (dict_get m "doi") = true ->
        sanity_check_metadata row prefix (Some m) = true ->
        normalize_doi (dict_get m "doi") = PStr n ->
        exists out,
          process_entity world prefix sliced row = (RowOut out, log)
          /\ out !! (prefix +:+ "_url") = Some (PStr ("http://doi.org/" +:+ n))).
Proof.
  intros Hurl Htitle Hne Hrun.
  rewrite (process_entity_title_form world prefix sliced row m log title) by done.
  split.
  - intros [Hd|Hs].
    + by rewrite Hd, andb_false_r.
    + rewrite Hs. by destruct (_ && _).
  - intros n Hd Hs Hn. rewrite Hd, Hs, Hn.
    assert (dict_truthy (Some m) = true) as ->.
    { unfold dict_truthy. apply negb_true_iff, bool_decide_eq_false_2.
      intros ->. by vm_compute in Hd. }
    destruct (normalize_doi_result (dict_get m "doi")) as [H|(n' & H & Hn')];
      [congruence|].
    assert (n' = n) as -> by congruence.
    apply truthy_str in Hn'. rewrite Hn'. cbn [andb py_str].
    eexists. split; [done|].
    destruct (enrich_from_metadata_keeps
                (<[prefix +:+ "_url" := PStr ("http://doi.org/" +:+ n)]> row)
                prefix (Some m) (prefix +:+ "_url")) as (_ & Hother).
    rewrite Hother by apply url_not_mapped. apply lookup_insert_eq.
Qed.

Lemma process_entity_by_title_witness :
  let row : gmap string pyval :=
    {["original_url" := PNaN; "original_title" := PStr "Some Effect (2019)"]} in
  exists out log,
    process_entity world_openalex "original" false row = (RowOut out, log)
    /\ out !! "original_url" = Some (PStr "http://doi.org/10.1/abc").
Proof.
  intros row.
  destruct (fetch_metadata_from_title world_openalex (PStr "Some Effect (2019)"))
    as [[[m|]|] log] eqn:Hrun;
    [|vm_compute in Hrun; discriminate Hrun|vm_compute in Hrun; discriminate Hrun].
  destruct (process_entity_by_title world_openalex "original" false row m log
              "Some Effect (2019)") as [_ Hfound];
    [vm_compute; reflexivity | vm_compute; reflexivity | vm_compute; reflexivity
    | exact Hrun |].
  vm_compute in Hrun. injection Hrun as <- <-.
  destruct (Hfound "10.1/abc") as (out & Hout & Hurl);
    [vm_compute; reflexivity | vm_compute; reflexivity | vm_compute; reflexivity |].
  exists out. eexists. split; [exact Hout | exact Hurl].
Defined.

(** X8.  An empty link and a replication title that is not a text (a title made
    of digits, which pandas reads as a number): the replication half of
    [process_row] raises, at the slice [[:50]] of its message; the same
    cells on the original side are passed on unchanged, without any
    request. *)
Theorem process_row_title_not_text (world : string -> reply)
    (row : gmap string pyval) (title : pyval) :
  is_str title = false -> is_empty title = false ->
  (is_empty (dict_get row "replication_url") = true ->
   dict_get row "replication_title" = title ->
   (process_row world row).1 = RowRaised)
  /\ (is_empty (dict_get row "original_url") = true ->
      dict_get row "original_title" = title ->
      process_entity world "original" false row = (RowOut row, [])).
Proof.
  intros Hstr Hne. split.
  - intros Hurl Htitle. unfold process_row.
    destruct (process_entity world "original" false row) as [[row1|] log1] eqn:H1;
      [|done].
    assert (dict_get row1 "replication_url" = dict_get row "replication_url") as Hu.
    { unfold dict_get.
      destruct (process_entity_cells _ _ _ _ _ _ "replication_url" H1) as [_ ->];
        [done|]. apply (bool_decide_unpack _). vm_compute. exact I. }
    assert (dict_get row1 "replication_title" = dict_get row "replication_title") as Ht.
    { unfold dict_get.
      destruct (process_entity_cells _ _ _ _ _ _ "replication_title" H1) as [_ ->];
        [done|]. apply (bool_decide_unpack _). vm_compute. exact I. }
    unfold process_entity. cbv zeta.
    change ("replication" +:+ "_url") with "replication_url".
    change ("replication" +:+ "_title") with "replication_title".
    rewrite Hu, Ht, Htitle.
    rewrite (extract_doi_from_url_empty _ Hurl). cbn [truthy andb].
    by rewrite Hurl, Hne, Hstr.
  - intros Hurl Htitle. unfold process_entity. cbv zeta.
    change ("original" +:+ "_url") with "original_url".
    change ("original" +:+ "_title") with "original_title".
    rewrite Htitle.
    rewrite (extract_doi_from_url_empty _ Hurl). cbn [truthy andb].
    rewrite Hurl, Hne. cbn [negb andb].
    by rewrite (fetch_metadata_from_title_not_str world title Hstr).
Qed.

Lemma process_row_title_not_text_witness :
  (process_row world_down
     {["original_url" := PStr "https://example.org/o";
       "replication_url" := PNaN; "replication_title" := PInt 1984]}).1 = RowRaised
  /\ process_entity world_down "original" false
       {["original_url" := PNaN; "original_title" := PInt 1984]}
     = (RowOut {["original_url" := PNaN; "original_title" := PInt 1984]}, []).
Proof.
  split.
  - apply (proj1 (process_row_title_not_text world_down _ (PInt 1984)
                    eq_refl eq_refl)); vm_compute; reflexivity.
  - apply (proj2 (process_row_title_not_text world_down _ (PInt 1984)
                    eq_refl eq_refl)); vm_compute; reflexivity.
Defined.

(** ** Trimming *)

Lemma lstrip_head (s : string) :
  lstrip s = "" \/ exists c r, lstrip s = String c r /\ is_space c = false.
Proof.
  induction s as [|c s IH]; [by left|]. simpl.
  destruct (is_space c) eqn:Hc; [exact IH|]. right. by exists c, s.
Qed.

Lemma lstrip_nonspace (c : ascii) (s : string) :
  is_space c = false -> lstrip (String c s) = String c s.
Proof. intros H. simpl. by rewrite H. Qed.

Lemma rstrip_nonspace_head (c : ascii) (s : string) :
  is_space c = false -> exists r, rstrip (String c s) = String c r.
Proof.
  intros H. simpl. destruct (rstrip s) as [|c' r].
  - rewrite H. by exists "".
  - by exists (String c' r).
Qed.

Lemma rstrip_idem (s : string) : rstrip (rstrip s) = rstrip s.
Proof.
  induction s as [|c s IH]; [done|]. simpl.
  destruct (rstrip s) as [|c' r] eqn:Hr.
  - destruct (is_space c) eqn:Hc; [done|]. simpl. by rewrite Hc.
  - change (rstrip (String c (String c' r)))
      with (match rstrip (String c' r) with
            | "" => if is_space c then "" else String c ""
            | String a b => String c (String a b)
            end).
    by rewrite IH.
Qed.

Lemma lstrip_rstrip_nonspace (s : string) (c : ascii) (r : string) :
  s = String c r -> is_space c = false -> lstrip (rstrip s) = rstrip s.
Proof.
  intros -> Hc. destruct (rstrip_nonspace_head c r Hc) as [r' ->].
  by apply lstrip_nonspace.
Qed.

(** [strip] is idempotent: a trimmed text has nothing left to trim. *)
Lemma strip_idem (s : string) : strip (strip s) = strip s.
Proof.
  unfold strip. destruct (lstrip_head s) as [->|(c & r & Hl & Hc)]; [done|].
  rewrite (lstrip_rstrip_nonspace (lstrip s) c r Hl Hc). apply rstrip_idem.
Qed.

Lemma trimmed_parts (n : string) :
  strip n = n -> n <> "" -> lstrip n = n /\ rstrip n = n.
Proof.
  intros Hn Hne. unfold strip in Hn.
  destruct (lstrip_head n) as [Hl|(c & r & Hl & Hc)].
  - rewrite Hl in Hn. simpl in Hn. congruence.
  - assert (lstrip n = n) as Hln.
    { destruct (rstrip_nonspace_head c r Hc) as [r' Hr].
      rewrite Hl, Hr in Hn. rewrite <- Hn. by apply lstrip_nonspace. }
    split; [done|]. by rewrite Hln in Hn.
Qed.

Lemma rstrip_app (p t : string) : rstrip t <> "" -> rstrip (p +:+ t) = p +:+ rstrip t.
Proof.
  intros Ht. induction p as [|c p IH]; [by rewrite !append_nil|].
  rewrite !append_cons. simpl. rewrite IH.
  destruct (p +:+ rstrip t) as [|c' r] eqn:Hp; [|done].
  destruct p; [by rewrite append_nil in Hp|by rewrite append_cons in Hp].
Qed.

(** X4.  The link that the pipeline builds from an identifier gives the
    identifier back: for a trimmed, non-empty identifier that holds no
    further ["http://doi.org/"], [extract_doi_from_url] of
    ["http://doi.org/"] followed by it is the identifier. *)
Theorem extract_doi_from_url_reads_back (n : string) :
  n <> "" -> strip n = n -> replace_empty n "http://doi.org/" = n ->
  extract_doi_from_url (PStr ("http://doi.org/" +:+ n)) = PStr n.
Proof.
  intros Hne Hstrip Hclean.
  destruct (trimmed_parts n Hstrip Hne) as [_ Hr].
  assert (strip ("http://doi.org/" +:+ n) = "http://doi.org/" +:+ n) as Hs.
  { unfold strip.
    assert (lstrip ("http://doi.org/" +:+ n) = "http://doi.org/" +:+ n) as ->
      by reflexivity.
    rewrite rstrip_app by (by rewrite Hr). by rewrite Hr. }
  unfold extract_doi_from_url. rewrite Hs.
  change (truthy (PStr ("http://doi.org/" +:+ n))) with true. cbn [negb].
  unfold startswith. rewrite prefix_app.
  by rewrite replace_empty_prefix, Hclean.
Qed.

Lemma extract_doi_from_url_reads_back_witness :
  extract_doi_from_url (PStr ("http://doi.org/" +:+ "10.1037/a0021524"))
    = PStr "10.1037/a0021524".
Proof.
  apply extract_doi_from_url_reads_back;
    [discriminate | vm_compute; reflexivity | vm_compute; reflexivity].
Defined.

Lemma trailing_junk_space (c : ascii) : trailing_junk c = false -> is_space c = false.
Proof.
  unfold trailing_junk. destruct (is_space c); [|done].
  by rewrite !orb_true_l.
Qed.

Lemma drop_trailing_junk_cons (c : ascii) (s : string) :
  drop_trailing_junk (String c s) = String c s ->
  (s = "" /\ trailing_junk c = false) \/ (s <> "" /\ drop_trailing_junk s = s).
Proof.
  simpl. destruct (drop_trailing_junk s) as [|c' r] eqn:Hr.
  - destruct (trailing_junk c) eqn:Hc; [done|]. intros [= <-]. by left.
  - intros [= <-]. by right.
Qed.

Lemma drop_trailing_junk_idem (s : string) :
  drop_trailing_junk (drop_trailing_junk s) = drop_trailing_junk s.
Proof.
  induction s as [|c s IH]; [done|]. simpl.
  destruct (drop_trailing_junk s) as [|c' r] eqn:Hr.
  - destruct (trailing_junk c) eqn:Hc; [done|]. simpl. by rewrite Hc.
  - change (drop_trailing_junk (String c (String c' r)))
      with (match drop_trailing_junk (String c' r) with
            | "" => if trailing_junk c then "" else String c ""
            | String a b => String c (String a b)
            end).
    by rewrite IH.
Qed.

Lemma drop_trailing_junk_rstrip (s : string) :
  drop_trailing_junk s = s -> rstrip s = s.
Proof.
  induction s as [|c s IH]; [done|]. intros Hs.
  destruct (drop_trailing_junk_cons c s Hs) as [[-> Hc]|[Hne Hs']].
  - simpl. by rewrite (trailing_junk_space c Hc).
  - simpl. rewrite (IH Hs'). by destruct s.
Qed.

Lemma drop_trailing_junk_lstrip (s : string) :
  drop_trailing_junk s = s -> drop_trailing_junk (lstrip s) = lstrip s.
Proof.
  induction s as [|c s IH]; [done|]. intros Hs.
  cbn [lstrip]. destruct (is_space c); [|done].
  apply IH. destruct (drop_trailing_junk_cons c s Hs) as [[-> _]|[_ Hs']]; done.
Qed.

(** X9.  The title that title mode searches for is clean: no whitespace is
    left around it, and none of the characters the second substitution
    takes away is left at its end. *)
Theorem clean_title_clean (title : string) :
  strip (clean_title title) = clean_title title
  /\ drop_trailing_junk (clean_title title) = clean_title title.
Proof.
  split; [apply strip_idem|].
  unfold clean_title, strip.
  pose proof (drop_trailing_junk_lstrip _
                (drop_trailing_junk_idem (drop_year_parens 0 title))) as Hl.
  by rewrite (drop_trailing_junk_rstrip _ Hl).
Qed.

(** ** The master dataset *)






(** The append re-types a column: a master whose column [n] holds
    integers, joined with a batch that has no such column, comes back
    with floats in that column. *)
Lemma ingest_data_append_retypes :
  let row (d : string) : gmap string pyval :=
    {["original_url" := PStr "http://doi.org/10.1/o";
      "replication_url" := PStr "http://doi.org/10.1/r";
      "description" := PStr d]} in
  let cols := ["original_url"; "replication_url"; "description"] in
  let master_df :=
    {| columns := cols ++ ["n"]; rows := [<["n" := PInt 5]> (row "first")] |} in
  let processed_df := {| columns := cols; rows := [row "second"] |} in
  exists updated,
    ingest_data_append processed_df master_df = Some (updated, 0)
    /\ (fun r => cell r "n") <$> rows updated = [PFloat 5; PNaN].
Proof. eexists. split; vm_compute; reflexivity. Qed.

Lemma filter_all_false {A} (P : A -> Prop) `{forall x, Decision (P x)} (l : list A) :
  (forall x, ~ P x) -> filter P l = [].
Proof.
  intros HP. induction l as [|x l IH]; [done|].
  by rewrite filter_cons_False.
Qed.

Lemma filter_all_true {A} (P : A -> Prop) `{forall x, Decision (P x)} (l : list A) :
  (forall x, P x) -> filter P l = l.
Proof.
  intros HP. induction l as [|x l IH]; [done|].
  rewrite filter_cons_True by done. by rewrite IH.
Qed.



(** ** Columns *)

Lemma cell_select (r : gmap string pyval) (cols : list string) (c : string) :
  c ∈ cols -> cell (filter (fun kv => kv.1 ∈ cols) r) c = cell r c.
Proof.
  intros Hc. unfold cell. f_equal.
  destruct (r !! c) as [v|] eqn:Hr.
  - by apply map_lookup_filter_Some.
  - apply map_lookup_filter_None. by left.
Qed.

Lemma filter_ext_in {A} (P Q : A -> Prop) `{forall x, Decision (P x)}
    `{forall x, Decision (Q x)} (l : list A) :
  (forall x, x ∈ l -> P x <-> Q x) -> filter P l = filter Q l.
Proof.
  induction l as [|x l IH]; intros HPQ; [done|].
  assert (filter P l = filter Q l) as Hl
    by (apply IH; intros y Hy; apply HPQ; by right).
  destruct (decide (P x)) as [HP|HP].
  - rewrite !filter_cons_True; [by rewrite Hl|by apply HPQ; [left|]|done].
  - rewrite !filter_cons_False; [done| |done].
    intros HQ. apply HP. apply HPQ; [by left|done].
Qed.

Lemma filter_none_in {A} (P : A -> Prop) `{forall x, Decision (P x)} (l : list A) :
  (forall x, x ∈ l -> ~ P x) -> filter P l = [].
Proof.
  intros HP. rewrite (filter_ext_in P (fun _ => False)); [|intros x Hx; by split; [apply HP|] ].
  apply filter_all_false. tauto.
Qed.

Lemma filter_every_in {A} (P : A -> Prop) `{forall x, Decision (P x)} (l : list A) :
  (forall x, x ∈ l -> P x) -> filter P l = l.
Proof.
  intros HP. rewrite (filter_ext_in P (fun _ => True)); [|intros x Hx; by split; [|intros _; apply HP] ].
  by apply filter_all_true.
Qed.

(** The columns of a frame with one label. *)
Lemma label_columns_one (l : list string) (c : string) :
  NoDup l -> c ∈ l -> filter (fun c' => c' = c) l = [c].
Proof.
  induction 1 as [|x l Hx Hl IH]; intros Hc; [by apply elem_of_nil in Hc|].
  apply elem_of_cons in Hc as [->|Hc].
  - rewrite filter_cons_True by done. f_equal.
    apply filter_none_in. by intros y Hy ->.
  - rewrite filter_cons_False by (by intros ->). by apply IH.
Qed.

Lemma select_columns_elem_of (df : DataFrame) (cols : list string) (c : string) :
  c ∈ columns (select_columns df cols) <-> c ∈ cols /\ c ∈ columns df.
Proof.
  unfold select_columns. cbn [columns]. rewrite list_elem_of_bind. split.
  - intros (y & [-> Hy]%list_elem_of_filter & Hc). done.
  - intros [Hc Hdf]. exists c. by rewrite list_elem_of_filter.
Qed.

(** In a frame whose labels are distinct, [df[cols]] has the columns
    [cols]. *)
Lemma select_columns_distinct (df : DataFrame) (cols : list string) :
  NoDup (columns df) -> (forall c, c ∈ cols -> c ∈ columns df) ->
  columns (select_columns df cols) = cols.
Proof.
  intros Hdf. unfold select_columns. cbn [columns].
  induction cols as [|c cols IH]; intros Hcols; [done|].
  rewrite bind_cons, label_columns_one; [|done|apply Hcols; by left].
  simpl. f_equal. apply IH. intros c' Hc'. apply Hcols. by right.
Qed.

Lemma iterrows_select (df : DataFrame) (cols : list string) :
  (forall c, c ∈ columns df -> c ∈ cols) ->
  iterrows (select_columns df cols) = iterrows df.
Proof.
  intros Hcols. unfold iterrows.
  change (rows (select_columns df cols))
    with ((fun r : gmap string pyval => filter (fun kv => kv.1 ∈ cols) r) <$> rows df).
  rewrite <- list_fmap_compose. apply list_fmap_ext. intros _ r _. cbn.
  apply map_eq. intros k. rewrite !lookup_columns_map.
  destruct (decide (k ∈ columns df)) as [Hin|Hnin].
  - rewrite decide_True by (apply select_columns_elem_of; auto).
    by rewrite cell_select by auto.
  - rewrite decide_False; [done|]. by intros [_ ?]%select_columns_elem_of.
Qed.

Lemma reorder_columns_order (df : DataFrame) (valid_columns : list string) (c : string) :
  c ∈ filter (fun col => col ∈ columns df) valid_columns
      ++ filter (fun col => col ∉ filter (fun col => col ∈ columns df) valid_columns)
           (columns df)
  <-> c ∈ columns df.
Proof.
  rewrite elem_of_app, !list_elem_of_filter. split.
  - intros [[? ?]|[? ?]]; done.
  - intros Hc. destruct (decide (c ∈ valid_columns)); [by left|].
    right. split; [|done]. by intros [_ ?].
Qed.

(** X12.  [reorder_columns] loses nothing and invents nothing: for a dictionary
    and a frame whose column names are distinct, the columns of the result
    are a rearrangement of those of the frame, and every row holds in
    every column the cell it held. *)
Theorem reorder_columns_rearranges (df : DataFrame) (valid_columns : list string) :
  NoDup valid_columns -> NoDup (columns df) ->
  columns (reorder_columns df valid_columns) ≡ₚ columns df
  /\ iterrows (reorder_columns df valid_columns) = iterrows df.
Proof.
  intros Hvalid Hdf. split.
  - unfold reorder_columns.
    rewrite select_columns_distinct;
      [|done|intros c Hc; by apply (reorder_columns_order df valid_columns)].
    apply NoDup_Permutation; [|done|apply reorder_columns_order].
    apply NoDup_app. split; [by apply NoDup_filter|]. split; [|by apply NoDup_filter].
    intros c Hc [Hn _]%list_elem_of_filter. done.
  - apply iterrows_select. intros c Hc.
    by apply (reorder_columns_order df valid_columns).
Qed.

Lemma reorder_columns_rearranges_witness :
  let df := {| columns := ["z"; "description"; "original_url"];
               rows := [{["z" := PInt 1; "original_url" := PStr "u"]}] |} in
  columns (reorder_columns df ["original_url"; "description"])
  = ["original_url"; "description"; "z"]
  /\ iterrows (reorder_columns df ["original_url"; "description"]) = iterrows df.
Proof.
  intros df. split; [vm_compute; reflexivity|].
  apply (reorder_columns_rearranges df ["original_url"; "description"]).
  - apply (bool_decide_unpack _). vm_compute. exact I.
  - apply (bool_decide_unpack _). vm_compute. exact I.
Defined.

(** Out of a run of blocks, one for each of distinct labels and each made
    of copies of its label, a label selects its block. *)
Lemma label_columns_block (l : list string) (f : string -> list string) (c : string) :
  NoDup l -> c ∈ l -> (forall x y, y ∈ f x -> y = x) ->
  filter (fun c' => c' = c) (l ≫= f) = f c.
Proof.
  intros Hl Hc Hf. induction Hl as [|x l Hx Hl IH]; [by apply elem_of_nil in Hc|].
  rewrite bind_cons, filter_app.
  apply elem_of_cons in Hc as [->|Hc].
  - rewrite (filter_every_in _ (f x)) by (intros y Hy; by apply Hf).
    rewrite (filter_none_in _ (l ≫= f)); [by rewrite app_nil_r|].
    intros y (z & ->%Hf & Hz)%list_elem_of_bind ->. done.
  - rewrite (filter_none_in _ (f x)); [by apply IH|].
    intros y ->%Hf ->. done.
Qed.

(** X13.  After [filter_columns], [reorder_columns] with the same dictionary
    changes nothing, for a dictionary that names no column twice: the
    columns are already those of the dictionary, in its order, and no
    other column is left to put behind them. *)
Theorem reorder_columns_after_filter_columns (df : DataFrame) (valid_columns : list string) :
  NoDup valid_columns ->
  reorder_columns (filter_columns df valid_columns) valid_columns
  = filter_columns df valid_columns.
Proof.
  intros Hvalid.
  unfold reorder_columns, filter_columns.
  set (keep := filter (fun col => col ∈ columns df) valid_columns).
  assert (NoDup keep) as Hkeep by (by apply NoDup_filter).
  assert (forall c, c ∈ columns (select_columns df keep) <-> c ∈ keep) as Hin.
  { intros c. rewrite select_columns_elem_of. unfold keep.
    rewrite list_elem_of_filter. tauto. }
  assert (filter (fun col => col ∈ columns (select_columns df keep)) valid_columns
          = keep) as ->.
  { apply filter_ext_in. intros c Hc. rewrite Hin. unfold keep.
    rewrite list_elem_of_filter. tauto. }
  assert (filter (fun col => col ∉ keep) (columns (select_columns df keep)) = [])
    as ->.
  { apply filter_none_in. intros c Hc%Hin. tauto. }
  rewrite app_nil_r. unfold select_columns. cbn [columns rows]. f_equal.
  - apply Forall_bind_ext, Forall_forall. intros c Hc.
    apply label_columns_block; [done|done|].
    by intros x y [-> _]%list_elem_of_filter.
  - rewrite <- list_fmap_compose. apply list_fmap_ext. intros _ r _. cbn.
    apply map_eq. intros k. rewrite !map_lookup_filter.
    destruct (r !! k) as [v|]; cbn; [|done].
    by case_guard.
Qed.

Lemma reorder_columns_after_filter_columns_witness :
  let df := {| columns := ["z"; "description"; "original_url"];
               rows := [{["z" := PInt 1; "original_url" := PStr "u"]}] |} in
  reorder_columns (filter_columns df ["original_url"; "description"])
    ["original_url"; "description"]
  = filter_columns df ["original_url"; "description"].
Proof.
  intros df.
  apply (reorder_columns_after_filter_columns df ["original_url"; "description"]).
  apply (bool_decide_unpack _). vm_compute. exact I.
Defined.

(** A dictionary that names a column twice: [filter_columns] hands back
    the column twice, and [reorder_columns], which selects each of the two
    labels again, four times. *)
Lemma reorder_columns_repeated_label :
  let df := {| columns := ["description"];
               rows := [{["description" := PStr "d"]}] |} in
  columns (filter_columns df ["description"; "description"])
  = ["description"; "description"]
  /\ columns (reorder_columns (filter_columns df ["description"; "description"])
                ["description"; "description"])
     = ["description"; "description"; "description"; "description"].
Proof. split; vm_compute; reflexivity. Qed.

(** X14.  What [filter_columns] keeps: a column of the frame that the
    dictionary names stays, with every cell of it; no other column
    does. *)
Theorem filter_columns_cells (df : DataFrame) (valid_columns : list string) :
  (forall c, c ∈ columns (filter_columns df valid_columns)
             <-> c ∈ valid_columns /\ c ∈ columns df)
  /\ length (rows (filter_columns df valid_columns)) = length (rows df)
  /\ (forall i r c, rows df !! i = Some r ->
        c ∈ valid_columns -> c ∈ columns df ->
        exists r', rows (filter_columns df valid_columns) !! i = Some r'
                   /\ cell r' c = cell r c).
Proof.
  unfold filter_columns.
  split; [|split].
  - intros c. rewrite select_columns_elem_of, list_elem_of_filter. tauto.
  - unfold select_columns. cbn [rows]. by rewrite length_fmap.
  - intros i r c Hr Hv Hc. eexists. split.
    + unfold select_columns. cbn [rows]. rewrite list_lookup_fmap, Hr. done.
    + apply cell_select. by apply list_elem_of_filter.
Qed.

Lemma filter_columns_cells_witness :
  let df := {| columns := ["z"; "description"];
               rows := [{["z" := PInt 1; "description" := PStr "d"]}] |} in
  exists r', rows (filter_columns df ["original_url"; "description"]) !! 0%nat = Some r'
             /\ cell r' "description" = PStr "d".
Proof.
  intros df.
  destruct (filter_columns_cells df ["original_url"; "description"]) as (_ & _ & Hcell).
  destruct (Hcell 0%nat {["z" := PInt 1; "description" := PStr "d"]} "description")
    as (r' & Hr' & Hc).
  - reflexivity.
  - apply (bool_decide_unpack _). vm_compute. exact I.
  - apply (bool_decide_unpack _). vm_compute. exact I.
  - exists r'. split; [exact Hr'|]. rewrite Hc. vm_compute. reflexivity.
Defined.

(** ** The discipline column *)

Lemma lower_char_idem (c : ascii) : lower_char (lower_char c) = lower_char c.
Proof. destruct c as [[] [] [] [] [] [] [] []]; vm_compute; reflexivity. Qed.

Lemma lower_idem (s : string) : lower (lower s) = lower s.
Proof.
  induction s as [|c s IH]; [done|].
  cbn [lower]. by rewrite lower_char_idem, IH.
Qed.

Lemma lower_if_text_idem (x : pyval) : lower_if_text (lower_if_text x) = lower_if_text x.
Proof. destruct x; cbn; [done..|]. by rewrite lower_idem. Qed.

Lemma cell_insert (r : gmap string pyval) (c : string) (v : pyval) :
  cell (<[c := v]> r) c = v.
Proof. unfold cell. by rewrite lookup_insert_eq. Qed.

Lemma cell_insert_ne (r : gmap string pyval) (c c' : string) (v : pyval) :
  c <> c' -> cell (<[c := v]> r) c' = cell r c'.
Proof. intros Hne. unfold cell. by rewrite lookup_insert_ne. Qed.

(** X15.  [normalize_discipline_column] touches the discipline column only and
    settles after one pass: the frame keeps its columns and the number of
    its rows, a cell of any other column is the cell it was, and
    normalising a normalised frame changes nothing. *)
Theorem normalize_discipline_column_only (df : DataFrame) :
  columns (normalize_discipline_column df) = columns df
  /\ (forall i r, rows df !! i = Some r ->
        exists r', rows (normalize_discipline_column df) !! i = Some r'
                   /\ forall c, c <> "discipline" -> cell r' c = cell r c)
  /\ normalize_discipline_column (normalize_discipline_column df)
     = normalize_discipline_column df.
Proof.
  unfold normalize_discipline_column.
  destruct (bool_decide ("discipline" ∈ columns df)) eqn:Hd.
  - cbn [columns rows]. rewrite Hd. split; [done|]. split.
    + intros i r Hr. eexists. split.
      * rewrite list_lookup_fmap, Hr. done.
      * intros c Hc. by apply cell_insert_ne.
    + f_equal. rewrite <- list_fmap_compose. apply list_fmap_ext.
      intros _ r _. cbn. rewrite cell_insert, lower_if_text_idem.
      by rewrite insert_insert_eq.
  - rewrite Hd. split; [done|]. split; [|done].
    intros i r Hr. by exists r.
Qed.

Lemma normalize_discipline_column_only_witness :
  let df := {| columns := ["discipline"; "description"];
               rows := [{["discipline" := PStr "Social PSYCHOLOGY";
                          "description" := PStr "An Effect"]}] |} in
  exists r', rows (normalize_discipline_column df) !! 0%nat = Some r'
             /\ cell r' "description" = PStr "An Effect".
Proof.
  intros df.
  destruct (normalize_discipline_column_only df) as (_ & Hcell & _).
  destruct (Hcell 0%nat {["discipline" := PStr "Social PSYCHOLOGY";
                          "description" := PStr "An Effect"]} eq_refl)
    as (r' & Hr' & Hc).
  exists r'. split; [exact Hr'|].
  rewrite Hc by discriminate. vm_compute. reflexivity.
Defined.

(** ** The citation of the website *)

Lemma append_not_empty (s : string) (c : ascii) : s +:+ String c "" <> "".
Proof. destruct s; [by rewrite append_nil|by rewrite append_cons]. Qed.

Lemma split_words_nil (cur s : string) :
  split_words cur s = [] <-> cur = "" /\ blank s = true.
Proof.
  revert cur. induction s as [|c s IH]; intros cur.
  - simpl. destruct cur; split; [done|done|done|by intros [? _]].
  - cbn [split_words blank]. destruct (is_space c) eqn:Hc; cbn [andb].
    + destruct cur as [|a cur].
      * rewrite IH. tauto.
      * split; [done|by intros [? _]].
    + rewrite IH. split; [|by intros [_ ?]].
      intros [Hcur _]. by apply append_not_empty in Hcur.
Qed.

Lemma split_words_not_empty (s cur : string) :
  Forall (fun w => w <> "") (split_words cur s).
Proof.
  revert cur. induction s as [|c s IH]; intros cur.
  - simpl. destruct cur; [constructor|]. by repeat constructor.
  - cbn [split_words]. destruct (is_space c); [|apply IH].
    destruct cur; [apply IH|]. constructor; [done|apply IH].
Qed.

(** X16.  When [format_authors] raises: exactly on a text that is not blank
    while its part before the first semicolon is.  On every other input it
    returns. *)
Theorem format_authors_raises (author_str : pyval) :
  format_authors author_str = None
  <-> exists s, author_str = PStr s /\ blank s = false
                /\ blank (before_semicolon s) = true.
Proof.
  destruct author_str as [| | | |s];
    try (split; [done|by intros (s & ? & _)]).
  unfold format_authors.
  assert (blank (strip (before_semicolon s)) = blank (before_semicolon s)) as Hb.
  { apply eq_true_iff_eq. rewrite <- !strip_empty_iff. by rewrite strip_idem. }
  destruct (truthy (PStr (strip s))) eqn:Hs; cbn [negb].
  - apply truthy_str in Hs.
    assert (blank s = false) as Hblank.
    { destruct (blank s) eqn:Hbs; [|done]. by apply strip_empty_iff in Hbs. }
    pose proof (split_words_not_empty (strip (before_semicolon s)) "") as Hne.
    pose proof (split_words_nil "" (strip (before_semicolon s))) as Hnil.
    destruct (split_words "" (strip (before_semicolon s))) as [|w ws] eqn:Hw.
    + cbn. split; [|done]. intros _. exists s. split; [done|]. split; [done|].
      rewrite <- Hb. by apply Hnil.
    + assert (blank (before_semicolon s) = false) as Hnb.
      { rewrite <- Hb. destruct (blank _) eqn:Hbb; [|done].
        destruct Hnil as [_ Hnil]. by discriminate Hnil. }
      apply Forall_cons in Hne as [Hw1 _].
      destruct ((2 <=? length (w :: ws))%nat).
      * destruct w as [|f w]; [done|].
        destruct (last (String f w :: ws)) eqn:Hlast.
        -- split; [done|]. intros (s' & [= <-] & _ & ?). congruence.
        -- by apply last_None in Hlast.
      * split; [done|]. intros (s' & [= <-] & _ & ?). congruence.
  - split; [done|]. intros (s' & [= <-] & Hblank & _).
    assert (strip s <> "") as Hne.
    { intros Hempty. apply strip_empty_iff in Hempty. congruence. }
    apply truthy_str in Hne. congruence.
Qed.

(** ** What the engines return *)

Lemma enrich_app (m : gmap string pyval) (a b : list (string * pyval)) :
  enrich (enrich m a) b = enrich m (a ++ b).
Proof. by rewrite !enrich_foldl, foldl_app. Qed.

Lemma enrich_item_shaped (fields : list string) (m : gmap string pyval)
    (kv : string * pyval) :
  shaped fields m -> kv.1 ∈ fields -> shaped fields (enrich_item m kv).
Proof.
  intros Hm Hk. unfold enrich_item. case_match; [|done].
  intros k. rewrite lookup_insert_is_Some. split.
  - intros [<-|[_ ?]]; [done|by apply Hm].
  - intros Hin. destruct (decide (kv.1 = k)); [by left|].
    right. split; [done|by apply Hm].
Qed.

Lemma enrich_shaped (fields : list string) (new : list (string * pyval))
    (m : gmap string pyval) :
  shaped fields m -> Forall (fun kv => kv.1 ∈ fields) new ->
  shaped fields (enrich m new).
Proof.
  rewrite enrich_foldl. intros Hm Hnew. revert m Hm.
  induction Hnew as [|kv new Hkv Hnew IH]; intros m Hm; [done|].
  simpl. apply IH. by apply enrich_item_shaped.
Qed.

Lemma enrich_item_clean (m : gmap string pyval) (kv : string * pyval) :
  clean m -> clean (enrich_item m kv).
Proof.
  intros Hm. unfold enrich_item.
  destruct (unfilled (dict_get m kv.1)); cbn [andb]; [|done].
  destruct (unfilled kv.2) eqn:Hv; cbn [negb]; [done|].
  intros k v. destruct (decide (kv.1 = k)) as [<-|Hne].
  - rewrite lookup_insert_eq. intros [= <-]. by right.
  - rewrite lookup_insert_ne by done. apply Hm.
Qed.

Lemma enrich_clean (new : list (string * pyval)) (m : gmap string pyval) :
  clean m -> clean (enrich m new).
Proof.
  rewrite enrich_foldl. revert m.
  induction new as [|kv new IH]; intros m Hm; [done|].
  simpl. apply IH. by apply enrich_item_clean.
Qed.

Lemma enrich_holds (new : list (string * pyval)) (m : gmap string pyval)
    (k : string) (v : pyval) :
  m !! k = Some v -> unfilled v = false -> enrich m new !! k = Some v.
Proof.
  intros Hk Hv. rewrite enrich_foldl, foldl_enrich_keeps; [done|].
  unfold dict_get. by rewrite Hk.
Qed.

Lemma none_dict_shaped (fields : list string) : shaped fields (none_dict fields).
Proof.
  intros k. unfold none_dict. induction fields as [|f fields IH].
  - rewrite fmap_nil, list_to_map_nil, lookup_empty.
    split; [by intros [? ?]|by intros ?%elem_of_nil].
  - rewrite fmap_cons, list_to_map_cons, lookup_insert_is_Some, elem_of_cons.
    split.
    + intros [->|[_ ?]]; [by left|right; by apply IH].
    + intros [->|?]; [by left|].
      destruct (decide (f = k)); [by left|]. right. split; [done|by apply IH].
Qed.

Lemma none_dict_clean (fields : list string) : clean (none_dict fields).
Proof.
  intros k v. unfold none_dict. induction fields as [|f fields IH].
  - by rewrite fmap_nil, list_to_map_nil, lookup_empty.
  - rewrite fmap_cons, list_to_map_cons.
    destruct (decide (f = k)) as [->|Hne].
    + rewrite lookup_insert_eq. intros [= <-]. by left.
    + by rewrite lookup_insert_ne.
Qed.

Lemma seq_merges (fields : list string) (l : list (M unit)) :
  Forall (merges fields) l -> merges fields (seq l).
Proof.
  induction 1 as [|b l Hb Hl IH]; intros s.
  - exists []. by split.
  - simpl. unfold bind. destruct (Hb s) as (n1 & Hn1 & H1).
    destruct (b s) as [[[]|v|] s1]; cbn [snd] in *; [|by exists n1..].
    destruct (IH s1) as (n2 & Hn2 & H2).
    exists (n1 ++ n2). split; [by apply Forall_app|].
    by rewrite H2, H1, enrich_app.
Qed.

Ltac solve_keys :=
  repeat (apply Forall_cons_2;
          [apply (bool_decide_unpack _); vm_compute; exact I|]);
  apply Forall_nil_2.

Ltac items_of t acc :=
  lazymatch t with
  | enrich_item ?m ?kv => items_of m constr:(kv :: acc)
  | enrich ?m ?new => constr:(new ++ acc)
  | _ => acc
  end.

Ltac block_merges :=
  intros [m d l]; run_block;
  lazymatch goal with
  | |- exists new, _ /\ ?t = _ =>
      let new := items_of t constr:(@nil (string * pyval)) in
      exists new; split; [solve_keys|reflexivity]
  end.

Section RecordMerges.

Variable world : string -> reply.

Lemma merges_sleep (fields : list string) : merges fields sleep.
Proof. block_merges. Qed.

Lemma merges_doi_from_meta (fields : list string) : merges fields doi_from_meta.
Proof. block_merges. Qed.

Lemma merges_openalex_by_doi (doi : string) :
  merges doi_fields (openalex_by_doi world doi).
Proof. block_merges. Qed.

Lemma merges_datacite_by_doi (doi : string) :
  merges doi_fields (datacite_by_doi world doi).
Proof. block_merges. Qed.

Lemma merges_crossref_by_doi (doi : string) :
  merges doi_fields (crossref_by_doi world doi).
Proof. block_merges. Qed.

Lemma merges_unpaywall_by_doi (doi email : string) :
  merges doi_fields (unpaywall_by_doi world doi email).
Proof. block_merges. Qed.

Lemma merges_europepmc_by_doi (doi : string) :
  merges doi_fields (europepmc_by_doi world doi).
Proof. block_merges. Qed.

Lemma merges_semanticscholar_by_doi (doi : string) :
  merges doi_fields (semanticscholar_by_doi world doi).
Proof. block_merges. Qed.

Lemma merges_openalex_by_title (title : string) :
  merges title_fields (openalex_by_title world title).
Proof. block_merges. Qed.

Lemma merges_crossref_by_title (title : string) :
  merges title_fields (crossref_by_title world title).
Proof. block_merges. Qed.

Lemma merges_europepmc_by_title (title : string) :
  merges title_fields (europepmc_by_title world title).
Proof. block_merges. Qed.

Lemma merges_datacite_by_title : merges title_fields (datacite_by_title world).
Proof. block_merges. Qed.

Lemma merges_semanticscholar_by_title (title : string) :
  merges title_fields (semanticscholar_by_title world title).
Proof. block_merges. Qed.

End RecordMerges.

Section ReturnedRecords.

Variable world : string -> reply.

Lemma merges_doi_chain (doi email : string) :
  Forall (merges doi_fields) (doi_chain world doi email).
Proof.
  unfold doi_chain.
  repeat apply Forall_cons_2; try apply Forall_nil_2;
    auto using merges_sleep, merges_openalex_by_doi, merges_datacite_by_doi,
      merges_crossref_by_doi, merges_unpaywall_by_doi,
      merges_europepmc_by_doi, merges_semanticscholar_by_doi.
Qed.

Lemma merges_title_chain (title : string) :
  Forall (merges title_fields) (title_chain world title).
Proof.
  unfold title_chain.
  repeat apply Forall_cons_2; try apply Forall_nil_2;
    auto using merges_sleep, merges_doi_from_meta, merges_openalex_by_title,
      merges_crossref_by_title, merges_europepmc_by_title,
      merges_datacite_by_title, merges_semanticscholar_by_title.
Qed.

(** The body of identifier mode returns, and what it returns is the
    record the chain has left, or, where that has no usable link, that
    record with the link to the identifier. *)
Lemma doi_body_result (doi email : string) :
  let r := seq (doi_chain world doi email) (doi_start doi) in
  exists m s',
    (seq (doi_chain world doi email) ;; doi_fallback doi) (doi_start doi)
    = (Return m, s')
    /\ st_log s' = st_log r.2
    /\ ((m = st_meta r.2
         /\ (is_complete m = true \/ truthy (dict_get m "url") = true))
        \/ (truthy (dict_get (st_meta r.2) "url") = false
            /\ m = <["url" := PStr (doi_url doi)]> (st_meta r.2))).
Proof.
  intros r. unfold bind.
  pose proof (seq_checked _ (checked_doi_chain world doi email)
                (doi_start doi) (doi_start_incomplete world doi)) as Hrun.
  destruct (seq_merges _ _ (merges_doi_chain doi email) (doi_start doi))
    as (new & Hnew & Hmeta).
  fold r in Hmeta. subst r.
  destruct (seq (doi_chain world doi email) (doi_start doi))
    as [[[]|v|] [m1 d1 l1]]; [| |done].
  - cbn [snd st_meta] in *.
    assert (is_Some (m1 !! "url")) as [u Hu].
    { rewrite Hmeta. apply enrich_is_Some. apply (doi_start_has_url world). }
    cbv [doi_fallback bind when get_meta set_meta return_ ret st_meta st_doi st_log].
    rewrite Hu. destruct (truthy u) eqn:Htruthy; cbn [negb].
    + eexists _, _. split; [done|]. split; [done|]. left. split; [done|].
      right. unfold dict_get. by rewrite Hu.
    + eexists _, _. split; [done|]. split; [done|]. right. split; [|done].
      unfold dict_get. by rewrite Hu.
  - destruct Hrun as [-> Hc]. eexists _, _. split; [done|]. split; [done|].
    left. split; [done|]. by left.
Qed.

Lemma plain_title_tail (title : string) (s : state) :
  exists s', seq [semanticscholar_by_title world title] s = (Normal tt, s').
Proof.
  destruct (plain_semanticscholar_by_title world title s) as [s' Hs'].
  exists s'. change (seq [semanticscholar_by_title world title] s)
    with (bind (semanticscholar_by_title world title) (fun _ => ret tt) s).
  unfold bind. rewrite Hs'. reflexivity.
Qed.

(** The body of title mode returns, and what it returns is the record
    the chain has left, or, where that has an identifier and no usable
    link, that record with the link to the identifier. *)
Lemma title_body_result (title : string) :
  let r := seq (title_chain world title) title_start in
  exists m s',
    (seq (title_chain world title) ;; title_fallback) title_start
    = (Return m, s')
    /\ st_log s' = st_log r.2
    /\ ((m = st_meta r.2
         /\ (is_complete m = true
             \/ truthy (dict_get m "doi") && negb (truthy (dict_get m "url"))
                = false))
        \/ (truthy (dict_get (st_meta r.2) "doi") = true
            /\ truthy (dict_get (st_meta r.2) "url") = false
            /\ m = <["url" := PStr (doi_url (py_str (dict_get (st_meta r.2) "doi")))]>
                     (st_meta r.2))).
Proof.
  intros r. subst r. unfold bind.
  change (title_chain world title)
    with ([ openalex_by_title world title; sleep; doi_from_meta;
            crossref_by_title world title; europepmc_by_title world title;
            datacite_by_title world ]
          ++ [semanticscholar_by_title world title]).
  rewrite seq_app.
  assert (incomplete title_start) as Hinc.
  { apply (incomplete_none_dict title_fields "doi").
    apply (bool_decide_unpack _). vm_compute. exact I. }
  pose proof (seq_checked _ (checked_title_chain_front world title)
                title_start Hinc) as Hrun.
  set (front := seq _ title_start) in *. clearbody front.
  destruct front as [[[]|v|] s1]; [| |exact (False_ind _ Hrun)].
  - destruct (plain_title_tail title s1) as [[m2 d2 l2] Htail].
    rewrite Htail.
    cbv [title_fallback bind when get_meta set_meta return_ ret st_meta st_doi st_log snd].
   
    destruct (truthy (dict_get m2 "doi") && negb (truthy (dict_get m2 "url")))
      eqn:Hc.
    + eexists _, _. split; [reflexivity|]. split; [reflexivity|]. right.
      apply andb_true_iff in Hc as [Hd Hu]. apply negb_true_iff in Hu.
      split; [exact Hd|]. split; [exact Hu|reflexivity].
    + eexists _, _. split; [reflexivity|]. split; [reflexivity|]. left. split; [reflexivity|]. right. exact Hc.
  - destruct Hrun as [-> Hc].
    eexists _, _. split; [reflexivity|]. split; [reflexivity|]. left. split; [reflexivity|]. left. exact Hc.
Qed.
Lemma doi_chain_record (doi email : string) :
  shaped doi_fields (st_meta (seq (doi_chain world doi email) (doi_start doi)).2)
  /\ clean (st_meta (seq (doi_chain world doi email) (doi_start doi)).2).
Proof.
  destruct (seq_merges _ _ (merges_doi_chain doi email) (doi_start doi))
    as (new & Hnew & ->).
  split.
  - apply enrich_shaped; [apply none_dict_shaped|done].
  - apply enrich_clean, none_dict_clean.
Qed.

Lemma title_chain_record (title : string) :
  shaped title_fields (st_meta (seq (title_chain world title) title_start).2)
  /\ clean (st_meta (seq (title_chain world title) title_start).2).
Proof.
  destruct (seq_merges _ _ (merges_title_chain title) title_start)
    as (new & Hnew & ->).
  split.
  - apply enrich_shaped; [apply none_dict_shaped|done].
  - apply enrich_clean, none_dict_clean.
Qed.

(** A field that is filled after a front part of a chain of merging
    blocks is still so, with that value, when the chain is through. *)
Lemma seq_holds (fields : list string) (pre post : list (M unit)) (s0 s : state)
    (k : string) (v : pyval) :
  Forall (merges fields) post ->
  seq pre s0 = (Normal tt, s) ->
  st_meta s !! k = Some v -> unfilled v = false ->
  st_meta (seq (pre ++ post) s0).2 !! k = Some v.
Proof.
  intros Hpost Hpre Hk Hv. rewrite seq_app, Hpre.
  destruct (seq_merges _ _ Hpost s) as (new & _ & ->).
  by apply enrich_holds.
Qed.

End ReturnedRecords.

Lemma insert_shaped (fields : list string) (m : gmap string pyval)
    (k : string) (v : pyval) :
  shaped fields m -> k ∈ fields -> shaped fields (<[k := v]> m).
Proof.
  intros Hm Hk k'. rewrite lookup_insert_is_Some. split.
  - intros [<-|[_ ?]]; [done|by apply Hm].
  - intros Hin. destruct (decide (k = k')); [by left|].
    right. split; [done|by apply Hm].
Qed.

Lemma insert_clean (m : gmap string pyval) (k : string) (v : pyval) :
  clean m -> unfilled v = false -> clean (<[k := v]> m).
Proof.
  intros Hm Hv k' v'. destruct (decide (k = k')) as [<-|Hne].
  - rewrite lookup_insert_eq. intros [= <-]. by right.
  - rewrite lookup_insert_ne by done. apply Hm.
Qed.

Lemma is_complete_filled (m : gmap string pyval) (k : string) :
  is_complete m = true -> is_Some (m !! k) -> unfilled (dict_get m k) = false.
Proof.
  intros Hc [v Hv]. unfold is_complete in Hc.
  apply bool_decide_eq_true_1 in Hc. exact (Hc k v Hv).
Qed.

Lemma clean_truthy_filled (m : gmap string pyval) (k : string) :
  clean m -> truthy (dict_get m k) = true -> unfilled (dict_get m k) = false.
Proof.
  intros Hm Ht. unfold dict_get in *.
  destruct (m !! k) as [v|] eqn:Hk; [|done]. cbn [default] in *.
  destruct (Hm k v Hk) as [->|Hv]; done.
Qed.

Lemma doi_url_filled (doi : string) : unfilled (PStr (doi_url doi)) = false.
Proof. reflexivity. Qed.

(** X17.  What identifier mode hands back for a proper identifier, whatever
    the providers answer: a record with the eight fields and no other, no
    field of which holds [""] or ["NaN"], and with a link in [url]. *)
Theorem fetch_metadata_from_doi_record (world : string -> reply) (d email : string) :
  strip d <> "" ->
  exists m log,
    fetch_metadata_from_doi world (PStr d) email = (Returned (Some m), log)
    /\ shaped doi_fields m
    /\ clean m
    /\ unfilled (dict_get m "url") = false.
Proof.
  intros Hd. unfold fetch_metadata_from_doi.
  apply truthy_str in Hd. rewrite Hd. cbn [negb]. unfold call.
  destruct (doi_body_result world (strip d) email) as (m & s' & -> & _ & Hm).
  destruct (doi_chain_record world (strip d) email) as [Hshaped Hclean].
  assert ("url" ∈ doi_fields) as Hurl
    by (apply (bool_decide_unpack _); vm_compute; exact I).
  exists m, (st_log s'). split; [done|].
  destruct Hm as [[-> Hm]|[_ ->]].
  - split; [done|]. split; [done|]. destruct Hm as [Hc|Ht].
    + apply is_complete_filled; [done|]. by apply Hshaped.
    + by apply clean_truthy_filled.
  - split; [by apply insert_shaped|]. split; [by apply insert_clean|].
    by rewrite dict_get_insert, decide_True.
Qed.

Lemma fetch_metadata_from_doi_record_witness :
  exists m log,
    fetch_metadata_from_doi world_down (PStr " 10.1/abc ") "a@b.org"
    = (Returned (Some m), log)
    /\ dict_get m "url" = PStr "https://doi.org/10.1/abc"
    /\ unfilled (dict_get m "url") = false.
Proof.
  destruct (fetch_metadata_from_doi_record world_down " 10.1/abc " "a@b.org")
    as (m & log & Hrun & _ & _ & Hurl); [vm_compute; discriminate|].
  exists m, log. split; [exact Hrun|]. split; [|exact Hurl].
  vm_compute in Hrun. injection Hrun as <- _. vm_compute. reflexivity.
Defined.

(** X18.  What title mode hands back for a proper title, whatever the
    providers answer and however their answers are broken: it does not
    raise; it returns a record with the nine fields and no other, no field
    of which holds [""] or ["NaN"]; and a record with an identifier has a
    link in [url]. *)
Theorem fetch_metadata_from_title_record (world : string -> reply) (t : string) :
  strip t <> "" ->
  exists m log,
    fetch_metadata_from_title world (PStr t) = (Returned (Some m), log)
    /\ shaped title_fields m
    /\ clean m
    /\ (truthy (dict_get m "doi") = true -> unfilled (dict_get m "url") = false).
Proof.
  intros Ht. unfold fetch_metadata_from_title.
  apply truthy_str in Ht. rewrite Ht. cbn [negb]. unfold call.
  destruct (title_body_result world (clean_title t)) as (m & s' & -> & _ & Hm).
  destruct (title_chain_record world (clean_title t)) as [Hshaped Hclean].
  assert ("url" ∈ title_fields) as Hurl
    by (apply (bool_decide_unpack _); vm_compute; exact I).
  exists m, (st_log s'). split; [done|].
  destruct Hm as [[-> Hm]|(Hdoi & _ & ->)].
  - split; [done|]. split; [done|]. intros Hdoi. destruct Hm as [Hc|Hf].
    + apply is_complete_filled; [done|]. by apply Hshaped.
    + rewrite Hdoi in Hf. cbn [andb] in Hf. apply negb_false_iff in Hf.
      by apply clean_truthy_filled.
  - split; [by apply insert_shaped|]. split; [by apply insert_clean|].
    intros _. by rewrite dict_get_insert, decide_True.
Qed.

Lemma fetch_metadata_from_title_record_witness :
  exists m log,
    fetch_metadata_from_title world_crossref_broken (PStr "Some Effect (2019).")
    = (Returned (Some m), log)
    /\ (truthy (dict_get m "doi") = true -> unfilled (dict_get m "url") = false).
Proof.
  destruct (fetch_metadata_from_title_record world_crossref_broken "Some Effect (2019).")
    as (m & log & Hrun & _ & _ & Hurl); [vm_compute; discriminate|].
  exists m, log. split; [exact Hrun|exact Hurl].
Defined.

(** X19.  First come, first kept, across the whole of identifier mode: a field
    that holds a filled value once a front part of the chain of providers
    has run holds that value in the record that is returned, whatever the
    providers after it answer.  (For [url] the value has to be a usable
    link: the last step replaces a link that counts as false.) *)
Theorem fetch_metadata_from_doi_first_wins (world : string -> reply) (d email : string)
    (pre post : list (M unit)) (s : state) (k : string) (v : pyval) :
  strip d <> "" ->
  doi_chain world (strip d) email = pre ++ post ->
  seq pre (doi_start (strip d)) = (Normal tt, s) ->
  st_meta s !! k = Some v -> unfilled v = false ->
  (k = "url" -> truthy v = true) ->
  exists m log,
    fetch_metadata_from_doi world (PStr d) email = (Returned (Some m), log)
    /\ m !! k = Some v.
Proof.
  intros Hd Hsplit Hpre Hk Hv Hurl. unfold fetch_metadata_from_doi.
  apply truthy_str in Hd. rewrite Hd. cbn [negb]. unfold call.
  destruct (doi_body_result world (strip d) email) as (m & s' & -> & _ & Hm).
  pose proof (merges_doi_chain world (strip d) email) as Hchain.
  rewrite Hsplit in Hchain. apply Forall_app in Hchain as [_ Hpost].
  pose proof (seq_holds doi_fields pre post _ s k v Hpost Hpre Hk Hv) as Hend.
  rewrite <- Hsplit in Hend.
  exists m, (st_log s'). split; [done|].
  destruct Hm as [[-> _]|[Hfalse ->]]; [done|].
  destruct (decide ("url" = k)) as [<-|Hne]; [|by rewrite lookup_insert_ne].
  assert (dict_get (st_meta (seq (doi_chain world (strip d) email) (doi_start (strip d))).2) "url" = v) as Hget
    by (unfold dict_get; by rewrite Hend).
  rewrite Hget, Hurl in Hfalse; done.
Qed.

Lemma fetch_metadata_from_doi_first_wins_witness :
  exists m log,
    fetch_metadata_from_doi world_two_titles (PStr "10.1/abc") "a@b.org"
    = (Returned (Some m), log)
    /\ m !! "title" = Some (PStr "Some Effect").
Proof.
  apply (fetch_metadata_from_doi_first_wins world_two_titles "10.1/abc" "a@b.org"
           [ openalex_by_doi world_two_titles "10.1/abc"; sleep;
             datacite_by_doi world_two_titles "10.1/abc";
             crossref_by_doi world_two_titles "10.1/abc" ]
           [ unpaywall_by_doi world_two_titles "10.1/abc" "a@b.org";
             europepmc_by_doi world_two_titles "10.1/abc";
             semanticscholar_by_doi world_two_titles "10.1/abc" ]
           (seq [ openalex_by_doi world_two_titles "10.1/abc"; sleep;
                  datacite_by_doi world_two_titles "10.1/abc";
                  crossref_by_doi world_two_titles "10.1/abc" ]
                (doi_start "10.1/abc")).2
           "title" (PStr "Some Effect")).
  - vm_compute. discriminate.
  - reflexivity.
  - vm_compute. reflexivity.
  - vm_compute. reflexivity.
  - reflexivity.
  - discriminate.
Defined.

(** X20.  First come, first kept, across the whole of title mode: a field that
    holds a filled value once a front part of the chain of providers has
    run holds that value in the record that is returned, whatever the
    providers after it answer.  (For [url] the value has to be a usable
    link, as in identifier mode.) *)
Theorem fetch_metadata_from_title_first_wins (world : string -> reply) (t : string)
    (pre post : list (M unit)) (s : state) (k : string) (v : pyval) :
  strip t <> "" ->
  title_chain world (clean_title t) = pre ++ post ->
  seq pre title_start = (Normal tt, s) ->
  st_meta s !! k = Some v -> unfilled v = false ->
  (k = "url" -> truthy v = true) ->
  exists m log,
    fetch_metadata_from_title world (PStr t) = (Returned (Some m), log)
    /\ m !! k = Some v.
Proof.
  intros Ht Hsplit Hpre Hk Hv Hurl. unfold fetch_metadata_from_title.
  apply truthy_str in Ht. rewrite Ht. cbn [negb]. unfold call.
  destruct (title_body_result world (clean_title t)) as (m & s' & -> & _ & Hm).
  pose proof (merges_title_chain world (clean_title t)) as Hchain.
  rewrite Hsplit in Hchain. apply Forall_app in Hchain as [_ Hpost].
  pose proof (seq_holds title_fields pre post _ s k v Hpost Hpre Hk Hv) as Hend.
  rewrite <- Hsplit in Hend.
  exists m, (st_log s'). split; [done|].
  destruct Hm as [[-> _]|(_ & Hfalse & ->)]; [done|].
  destruct (decide ("url" = k)) as [<-|Hne]; [|by rewrite lookup_insert_ne].
  assert (dict_get (st_meta (seq (title_chain world (clean_title t)) title_start).2) "url" = v) as Hget
    by (unfold dict_get; by rewrite Hend).
  rewrite Hget, Hurl in Hfalse; done.
Qed.

Lemma fetch_metadata_from_title_first_wins_witness :
  exists m log,
    fetch_metadata_from_title world_crossref_hit (PStr "Some Effect")
    = (Returned (Some m), log)
    /\ m !! "doi" = Some (PStr "10.1/abc").
Proof.
  apply (fetch_metadata_from_title_first_wins world_crossref_hit "Some Effect"
           [ openalex_by_title world_crossref_hit "Some Effect"; sleep; doi_from_meta;
             crossref_by_title world_crossref_hit "Some Effect" ]
           [ europepmc_by_title world_crossref_hit "Some Effect";
             datacite_by_title world_crossref_hit;
             semanticscholar_by_title world_crossref_hit "Some Effect" ]
           (seq [ openalex_by_title world_crossref_hit "Some Effect"; sleep;
                  doi_from_meta;
                  crossref_by_title world_crossref_hit "Some Effect" ]
                title_start).2
           "doi" (PStr "10.1/abc")).
  - vm_compute. discriminate.
  - reflexivity.
  - vm_compute. reflexivity.
  - vm_compute. reflexivity.
  - reflexivity.
  - discriminate.
Defined.
